(** * One-time passcodes by mail: store, rate limiter and expiry

    A shallow embedding of the OTP part of the backend's [mail.ts]
    ([generateOTP], [sendOTP], [validateOTP], [scheduleOtpExpiry] and the
    loading of the disposable-mail list), and the properties its
    specification states about it.

    The repository holds two revisions of the file.  The later one (with
    [scheduleOtpExpiry] and the decremented backoff exponent) is the one the
    specification describes; it is embedded at top level.  The earlier one
    ([src/backend/src/mail.ts]) is embedded in [Module Legacy], and the
    places where it behaves differently are recorded as lemmas.

    Modelling choices.
    - JavaScript numbers that hold clock readings ([Date.now()], in
      milliseconds) and send counts are integers of [Z].  The only
      non-integer operations of the source are the three [Math.ceil(x / d)],
      written here as ceiling division.  [Math.pow(2, k)] is the integer
      power: the two agree as long as [60000 * 2 ^ k] is a finite double,
      that is for every count below a thousand, and the limit exceeds the
      validity window from the tenth consecutive send on.
    - A [lastSendTime] of 0 is falsy in the source and is read as unset; the
      model keeps that ([truthy]).
    - Strings are byte strings.  [toLowerCase] maps the ASCII capitals only,
      which is the source's function on addresses of ASCII characters; a
      property that depends on the lower-cased value is stated for those.
    - The module-level object [OTP] is a [gmap string OTPEntry].  Its keys
      are only ever written by [generateOTP], which [sendOTP] reaches only
      for an address with a second [@]-separated segment.
    - The code runs in a state-and-exception monad [Js]: a thrown exception
      keeps the mutations made before it, as in JavaScript.
    - What the environment supplies is an argument: the clock readings, the
      draws [Math.floor(Math.random() * 10)], the outcome of the delivery.
      The [await] of the delivery is taken without another handler running
      in between. *)

From Stdlib Require Import ZArith String Ascii List Lia.
From stdpp Require Import base tactics option list gmap strings pretty.

Local Open Scope string_scope.
Local Open Scope Z_scope.

(** ** Data model *)

(** [interface OTPEntry]: [lastSendTime] is optional in the source. *)
Record OTPEntry : Type := mkOTPEntry {
  code : string;
  lastSendTime : option Z;
  recentSendCount : Z
}.

(** [sendOTPResponse] of [models/entities]. *)
Record sendOTPResponse : Type := mkResponse {
  msg : string;
  valid : bool
}.

(** What is handed to [transporter.sendMail].  The subject and sender of the
    source depend on the deployment's environment variables and on a digest
    of the address; they carry no part of the OTP logic and are left out. *)
Record Mail : Type := mkMail {
  mail_text : string;
  mail_to : string
}.

(** Exceptions that can reach the [catch] of [sendOTP]. *)
Inductive Exn : Type :=
  | TypeError (what : string)
  | DeliveryError.

(** The argument of [log]. *)
Record LogEntry : Type := mkLog {
  log_error : string;
  log_details : Exn
}.

(** Pending [setTimeout] callbacks.  [GuardedExpiry] is the callback of
    [scheduleOtpExpiry]; [PlainExpiry] is the one the earlier revision's
    [generateOTP] registers. *)
Inductive Timer : Type :=
  | GuardedExpiry (email : string) (expectedLastSendTime : Z) (delay : Z)
  | PlainExpiry (email : string) (delay : Z).

(** Outcome of the awaited [transporter.sendMail]. *)
Inductive Delivery : Type := Delivered | Rejected.

(** Module state and what the module has emitted. *)
Record World : Type := mkWorld {
  OTP : gmap string OTPEntry;
  disposableMails : list string;
  timers : list Timer;
  outbox : list Mail;
  logged : list LogEntry
}.

Definition OTP_RATE_LIMIT_MS : Z := 60000.
Definition OTP_EXPIRE_MS : Z := 6 * 60 * 60 * 1000.
Definition OTP_EXPIRE_TOLERANCE_MS : Z := 60 * 1000.

(** ** The monad *)

Inductive Completion (A : Type) : Type :=
  | Normal (a : A)
  | Thrown (e : Exn).
Arguments Normal {A} a.
Arguments Thrown {A} e.

Definition Js (A : Type) : Type := World -> Completion A * World.

Definition ret {A} (a : A) : Js A := fun w => (Normal a, w).

Definition bind {A B} (m : Js A) (k : A -> Js B) : Js B :=
  fun w =>
    match m w with
    | (Normal a, w') => k a w'
    | (Thrown e, w') => (Thrown e, w')
    end.

Definition throw {A} (e : Exn) : Js A := fun w => (Thrown e, w).

(** [try { body } catch (err) { handler }] *)
Definition try_catch {A} (body : Js A) (handler : Exn -> Js A) : Js A :=
  fun w =>
    match body w with
    | (Normal a, w') => (Normal a, w')
    | (Thrown e, w') => handler e w'
    end.

Definition gets {A} (f : World -> A) : Js A := fun w => (Normal (f w), w).

Definition modify (f : World -> World) : Js unit := fun w => (Normal tt, f w).

Declare Scope js_scope.
Delimit Scope js_scope with js.
Notation "x <- m ;; k" := (bind m (fun x => k))
  (at level 100, m at next level, k at level 200, right associativity) : js_scope.
Notation "m ;; k" := (bind m (fun _ => k))
  (at level 100, k at level 200, right associativity) : js_scope.
Local Open Scope js_scope.

Definition with_OTP (f : gmap string OTPEntry -> gmap string OTPEntry) (w : World) : World :=
  mkWorld (f (OTP w)) (disposableMails w) (timers w) (outbox w) (logged w).

(** [OTP[email]] read as a value that must exist: a property access on
    [undefined] throws. *)
Definition entry_of (email : string) : Js OTPEntry :=
  o <- gets (fun w => OTP w !! email) ;;
  match o with
  | Some e => ret e
  | None => throw (TypeError "Cannot read properties of undefined")
  end.

Definition setTimeout (t : Timer) : Js unit :=
  modify (fun w => mkWorld (OTP w) (disposableMails w) (timers w ++ [t]) (outbox w) (logged w)).

Definition log (l : LogEntry) : Js unit :=
  modify (fun w => mkWorld (OTP w) (disposableMails w) (timers w) (outbox w) (logged w ++ [l])).

(** [await transporter.sendMail(m)]: the mail is handed over, and a rejected
    promise is rethrown at the [await]. *)
Definition sendMail (m : Mail) (d : Delivery) : Js unit :=
  modify (fun w => mkWorld (OTP w) (disposableMails w) (timers w) (outbox w ++ [m]) (logged w)) ;;
  match d with
  | Delivered => ret tt
  | Rejected => throw DeliveryError
  end.

(** ** JavaScript library functions used by the source *)

(** [s.split(sep)] for a one-character separator: the first segment and the
    remaining ones. *)
Fixpoint split_segments (sep : ascii) (s : string) : string * list string :=
  match s with
  | EmptyString => (EmptyString, [])
  | String c s' =>
      let '(h, t) := split_segments sep s' in
      if Ascii.eqb c sep then (EmptyString, h :: t) else (String c h, t)
  end.

Definition split (sep : ascii) (s : string) : list string :=
  let '(h, t) := split_segments sep s in h :: t.

(** [toLowerCase] on the ASCII letters; other bytes are kept.  On a string
    of ASCII characters this is the source's [toLowerCase]; on other
    characters the source also maps the capitals of other alphabets, which
    this function does not.  The properties that depend on the value of
    [toLowerCase], and not only on its result being or not being in the
    list, are stated for strings of ASCII characters ([is_ascii]). *)
Definition lower_ascii (c : ascii) : ascii :=
  let n := nat_of_ascii c in
  if (Nat.leb 65 n && Nat.leb n 90)%bool then ascii_of_nat (n + 32) else c.

Fixpoint toLowerCase (s : string) : string :=
  match s with
  | EmptyString => EmptyString
  | String c s' => String (lower_ascii c) (toLowerCase s')
  end.

(** [l.includes(x)] on strings. *)
Definition includes (l : list string) (x : string) : bool := bool_decide (x ∈ l).

(** Truthiness of a [number | undefined]. *)
Definition truthy (o : option Z) : bool :=
  match o with
  | Some t => negb (t =? 0)
  | None => false
  end.

(** [Math.ceil(x / d)] for integers [x] and [d > 0]. *)
Definition ceil_div (x d : Z) : Z := - ((- x) / d).

Definition Math_abs (x : Z) : Z := Z.abs x.

(** ** Loading the disposable-mail list

    [readFileSync(...).split("\n")] inside [try]; [None] is a read that
    throws, which leaves the initial [[]]. *)
Definition newline : ascii := "010"%char.

Definition load_disposableMails (file : option string) : list string :=
  match file with
  | Some content => split newline content
  | None => []
  end.

Definition initial_world (file : option string) : World :=
  mkWorld ∅ (load_disposableMails file) [] [] [].

(** ** [scheduleOtpExpiry] *)

(** The callback handed to [setTimeout], run at clock reading [now]. *)
Definition expiry_callback (email : string) (expectedLastSendTime : Z) (now : Z) : Js unit :=
  entry <- gets (fun w => OTP w !! email) ;;
  if negb (truthy (entry ≫= lastSendTime)) then ret tt
  else
    match entry ≫= lastSendTime with
    | None => ret tt
    | Some last =>
        let delta := Math_abs (last - expectedLastSendTime) in
        let age := now - last in
        if ((delta <=? OTP_EXPIRE_TOLERANCE_MS) &&
            (OTP_EXPIRE_MS - OTP_EXPIRE_TOLERANCE_MS <=? age))%bool
        then modify (with_OTP (delete email))
        else ret tt
    end.

Definition scheduleOtpExpiry (email : string) (expectedLastSendTime : Z) : Js unit :=
  setTimeout (GuardedExpiry email expectedLastSendTime OTP_EXPIRE_MS).

(** Running a pending timer's callback at clock reading [now]. *)
Definition fire (t : Timer) (now : Z) : Js unit :=
  match t with
  | GuardedExpiry email expected _ => expiry_callback email expected now
  | PlainExpiry email _ => modify (with_OTP (delete email))
  end.

(** ** [generateOTP] *)

Definition digits : string := "0123456789".

(** [digits[k]] appended to a string: an index out of range yields
    [undefined], which concatenation prints. *)
Definition digit_at (k : nat) : string :=
  match String.get k digits with
  | Some c => String c EmptyString
  | None => "undefined"
  end.

(** The loop of [generateOTP]; [rnd i] is the value of
    [Math.floor(Math.random() * 10)] at iteration [i]. *)
Definition random_code (rnd : nat -> nat) : string :=
  fold_left (fun tmp i => tmp ++ digit_at (rnd i)) (seq 0 6) "".

(** The object literal assigned to [OTP[email]]: [prev?.lastSendTime] and
    [prev?.recentSendCount ?? 0]. *)
Definition fresh_entry (tmp : string) (prev : option OTPEntry) : OTPEntry :=
  {| code := tmp;
     lastSendTime := prev ≫= lastSendTime;
     recentSendCount := default 0 (recentSendCount <$> prev) |}.

Definition generateOTP (email : string) (rnd : nat -> nat) : Js unit :=
  let tmp := random_code rnd in
  prev <- gets (fun w => OTP w !! email) ;;
  modify (with_OTP (insert email (fresh_entry tmp prev))).

(** ** [sendOTP] *)

Definition msg_disposable : string :=
  "Le courriel fourni appartient à un fournisseur d'addresses temporaires".
Definition msg_sent : string := "Un code vous a été envoyé à l'adresse indiquée".
Definition msg_failure : string := "Erreur lors de l'envoi du code par mail".

(** [email.split("@")[1].toLowerCase()]: the method call on a missing second
    segment throws. *)
Definition provider_of (email : string) : Js string :=
  match split "@"%char email !! 1%nat with
  | Some segment => ret (toLowerCase segment)
  | None => throw (TypeError "Cannot read properties of undefined (reading 'toLowerCase')")
  end.

(** The [else if (email in OTP && OTP[email].lastSendTime)] block, given the
    value of [OTP[email]] and the clock reading: [Some r] when the block
    returns [r], [None] when control falls through to the generation. *)
Definition backoff_denial (entry : option OTPEntry) (now : Z) : option sendOTPResponse :=
  match entry with
  | None => None
  | Some e =>
      if negb (truthy (lastSendTime e)) then None
      else
        match lastSendTime e with
        | None => None
        | Some last =>
            let timeSinceLastSend := now - last in
            let effectiveCount := Z.max 0 (recentSendCount e - 1) in
            let rateLimit := OTP_RATE_LIMIT_MS * 2 ^ effectiveCount in
            if timeSinceLastSend <? rateLimit then
              let secondsLeft := ceil_div (rateLimit - timeSinceLastSend) 1000 in
              let maxSecondsLeft := ceil_div OTP_EXPIRE_MS 1000 in
              let clampedSecondsLeft := Z.min secondsLeft maxSecondsLeft in
              if 120 <? clampedSecondsLeft then
                let minutesLeft := ceil_div clampedSecondsLeft 60 in
                Some {| msg := "Veuillez attendre " ++ pretty minutesLeft ++ " minute"
                               ++ (if 1 <? minutesLeft then "s" else "")
                               ++ " avant de demander à nouveau un code";
                        valid := false |}
              else
                Some {| msg := "Veuillez attendre " ++ pretty clampedSecondsLeft ++ " seconde"
                               ++ (if 1 <? clampedSecondsLeft then "s" else "")
                               ++ " avant de demander à nouveau un code";
                        valid := false |}
            else None
        end
  end.

(** An assignment to a property of [OTP[email]]: throws when the record is
    missing. *)
Definition update_entry (email : string) (f : OTPEntry -> OTPEntry) : Js unit :=
  e <- entry_of email ;;
  modify (with_OTP (insert email (f e))).

Definition set_lastSendTime (t : Z) (e : OTPEntry) : OTPEntry :=
  {| code := code e; lastSendTime := Some t; recentSendCount := recentSendCount e |}.

Definition incr_recentSendCount (e : OTPEntry) : OTPEntry :=
  {| code := code e; lastSendTime := lastSendTime e; recentSendCount := recentSendCount e + 1 |}.

Definition catch_SendOTP (err : Exn) : Js sendOTPResponse :=
  log {| log_error := "SendOTP error"; log_details := err |} ;;
  ret {| msg := msg_failure; valid := false |}.

(** The message object of the OTP mail. *)
Definition otp_mail (email : string) (c : string) : Mail :=
  {| mail_text := "Votre code, valide 6 heures: " ++ c; mail_to := email |}.

(** [now] is the clock reading of the rate-limit check, [now'] the one taken
    after the delivery; [scheduleOtpExpiry] receives the value just stored in
    [lastSendTime], which is [now']. *)
Definition sendOTP (email : string) (now : Z) (rnd : nat -> nat) (d : Delivery) (now' : Z)
  : Js sendOTPResponse :=
  try_catch
    (provider <- provider_of email ;;
     disposable <- gets (fun w => includes (disposableMails w) provider) ;;
     if disposable then ret {| msg := msg_disposable; valid := false |}
     else
       entry <- gets (fun w => OTP w !! email) ;;
       match backoff_denial entry now with
       | Some denial => ret denial
       | None =>
           generateOTP email rnd ;;
           e <- entry_of email ;;
           sendMail (otp_mail email (code e)) d ;;
           update_entry email (set_lastSendTime now') ;;
           scheduleOtpExpiry email now' ;;
           update_entry email incr_recentSendCount ;;
           ret {| msg := msg_sent; valid := true |}
       end)
    catch_SendOTP.

(** ** [validateOTP] *)

(** [otp && OTP[email] && (OTP[email].code === otp)]: a string is falsy
    exactly when it is empty. *)
Definition validateOTP (email otp : string) : Js bool :=
  entry <- gets (fun w => OTP w !! email) ;;
  if negb (String.eqb otp "") then
    match entry with
    | Some e =>
        if String.eqb (code e) otp
        then modify (with_OTP (delete email)) ;; ret true
        else ret false
    | None => ret false
    end
  else ret false.

(** ** Sequences of calls *)

(** One call into the module, with what the environment supplies to it. *)
Inductive Action : Type :=
  | ActSend (email : string) (now : Z) (rnd : nat -> nat) (d : Delivery) (now' : Z)
  | ActValidate (email otp : string)
  | ActFire (t : Timer) (now : Z).

Definition step (a : Action) (w : World) : World :=
  match a with
  | ActSend email now rnd d now' => snd (sendOTP email now rnd d now' w)
  | ActValidate email otp => snd (validateOTP email otp w)
  | ActFire t now => snd (fire t now w)
  end.

Definition run (acts : list Action) (w : World) : World :=
  fold_left (fun w a => step a w) acts w.

(** An action that is not a [sendOTP] for [address]: it cannot reach
    [generateOTP] for it. *)
Definition no_generation_for (address : string) (a : Action) : Prop :=
  match a with
  | ActSend email _ _ _ _ => email ≠ address
  | _ => True
  end.

(** One committed send: the clock reading at the request, the draws, the
    clock reading after the delivery. *)
Record Send : Type := mkSend {
  send_now : Z;
  send_rnd : nat -> nat;
  send_commit : Z
}.

(** [sendOTP] called once per element, each delivery succeeding; [None] as
    soon as one call does not answer [valid = true]. *)
Fixpoint committed_sends (email : string) (sends : list Send) (w : World) : option World :=
  match sends with
  | [] => Some w
  | s :: rest =>
      match sendOTP email (send_now s) (send_rnd s) Delivered (send_commit s) w with
      | (Normal r, w') => if valid r then committed_sends email rest w' else None
      | (Thrown _, _) => None
      end
  end.

(** The limit as the specification words it: the doubled base interval,
    capped at the validity window. *)
Definition spec_capped_limit (sendCount : Z) : Z :=
  Z.min (OTP_RATE_LIMIT_MS * 2 ^ Z.max 0 (sendCount - 1)) OTP_EXPIRE_MS.

(** The denial message as the specification words it, for a wait of
    [seconds]: minutes above 120 seconds, the singular exactly for 1. *)
Definition spec_wait_message (seconds : Z) : string :=
  let shown := if 120 <? seconds then ceil_div seconds 60 else seconds in
  let unit := if 120 <? seconds then "minute" else "seconde" in
  "Veuillez attendre " ++ pretty shown ++ " " ++ unit
    ++ (if shown =? 1 then "" else "s") ++ " avant de demander à nouveau un code".

(** ** The earlier revision, [src/backend/src/mail.ts] *)

Module Legacy.

(** [generateOTP] starts a fresh record and registers an unguarded
    deletion six hours later. *)
Definition generateOTP (email : string) (rnd : nat -> nat) : Js unit :=
  let tmp := random_code rnd in
  modify (with_OTP (insert email
    {| code := tmp; lastSendTime := None; recentSendCount := 0 |})) ;;
  setTimeout (PlainExpiry email (6 * 60 * 60 * 1000)).

(** The rate-limit block: it either returns a denial or resets the count
    and falls through.  Counts are never negative, so [2 ^ count] is the
    integer power. *)
Definition backoff_gate (email : string) (now : Z) : Js (option sendOTPResponse) :=
  entry <- gets (fun w => OTP w !! email) ;;
  match entry with
  | None => ret None
  | Some e =>
      if negb (truthy (lastSendTime e)) then ret None
      else
        match lastSendTime e with
        | None => ret None
        | Some last =>
            let timeSinceLastSend := now - last in
            let rateLimit :=
              if timeSinceLastSend <? OTP_RATE_LIMIT_MS
              then OTP_RATE_LIMIT_MS * 2 ^ recentSendCount e
              else OTP_RATE_LIMIT_MS in
            if timeSinceLastSend <? rateLimit then
              let secondsLeft := ceil_div (rateLimit - timeSinceLastSend) 1000 in
              ret (Some {| msg := "Veuillez attendre " ++ pretty secondsLeft
                                  ++ " secondes avant de renvoyer un code";
                           valid := false |})
            else
              update_entry email (fun e' =>
                {| code := code e'; lastSendTime := lastSendTime e'; recentSendCount := 0 |}) ;;
              ret None
        end
  end.

Definition sendOTP (email : string) (now : Z) (rnd : nat -> nat) (d : Delivery) (now' : Z)
  : Js sendOTPResponse :=
  try_catch
    (provider <- provider_of email ;;
     disposable <- gets (fun w => includes (disposableMails w) provider) ;;
     if disposable then ret {| msg := msg_disposable; valid := false |}
     else
       gate <- backoff_gate email now ;;
       match gate with
       | Some denial => ret denial
       | None =>
           generateOTP email rnd ;;
           e <- entry_of email ;;
           sendMail (otp_mail email (code e)) d ;;
           update_entry email (set_lastSendTime now') ;;
           update_entry email incr_recentSendCount ;;
           ret {| msg := msg_sent; valid := true |}
       end)
    catch_SendOTP.

End Legacy.

(** ** Sample inputs *)

Definition sample_rnd : nat -> nat := fun i => S i.

(** The module after loading a one-line list. *)
Definition w0 : World := initial_world (Some "mailinator.com").

(** The module after one committed send to [a@b.com]. *)
Definition w1 : World := snd (sendOTP "a@b.com" 999000 sample_rnd Delivered 1000000 w0).

(** Calls that never reach [generateOTP] for [a@b.com]. *)
Definition sample_other_calls : list Action :=
  [ ActValidate "a@b.com" "123456";
    ActFire (GuardedExpiry "a@b.com" 1000000 OTP_EXPIRE_MS) 22600000;
    ActSend "c@d.org" 1005000 sample_rnd Delivered 1005400;
    ActValidate "c@d.org" "000000" ].

(** Two committed sends to [a@b.com], the second one a base interval after
    the first, and the module after them. *)
Definition two_sends : list Send :=
  [ mkSend 999000 sample_rnd 1000000; mkSend 1060000 sample_rnd 1061000 ].

Definition w2 : World :=
  run [ ActSend "a@b.com" 999000 sample_rnd Delivered 1000000;
        ActSend "a@b.com" 1060000 sample_rnd Delivered 1061000 ] w0.

(** Ten committed sends to [a@b.com], each requested once its limit has
    elapsed and committed a second later; the expiry timers of the first
    eight commits fire on time, before the tenth request. *)
Definition ten_sends_run : list Action :=
  [ ActSend "a@b.com" 999000 sample_rnd Delivered 1000000;
    ActSend "a@b.com" 1060000 sample_rnd Delivered 1061000;
    ActSend "a@b.com" 1181000 sample_rnd Delivered 1182000;
    ActSend "a@b.com" 1422000 sample_rnd Delivered 1423000;
    ActSend "a@b.com" 1903000 sample_rnd Delivered 1904000;
    ActSend "a@b.com" 2864000 sample_rnd Delivered 2865000;
    ActSend "a@b.com" 4785000 sample_rnd Delivered 4786000;
    ActSend "a@b.com" 8626000 sample_rnd Delivered 8627000;
    ActSend "a@b.com" 16307000 sample_rnd Delivered 16308000;
    ActFire (GuardedExpiry "a@b.com" 1000000 OTP_EXPIRE_MS) 22600000;
    ActFire (GuardedExpiry "a@b.com" 1061000 OTP_EXPIRE_MS) 22661000;
    ActFire (GuardedExpiry "a@b.com" 1182000 OTP_EXPIRE_MS) 22782000;
    ActFire (GuardedExpiry "a@b.com" 1423000 OTP_EXPIRE_MS) 23023000;
    ActFire (GuardedExpiry "a@b.com" 1904000 OTP_EXPIRE_MS) 23504000;
    ActFire (GuardedExpiry "a@b.com" 2865000 OTP_EXPIRE_MS) 24465000;
    ActFire (GuardedExpiry "a@b.com" 4786000 OTP_EXPIRE_MS) 26386000;
    ActFire (GuardedExpiry "a@b.com" 8627000 OTP_EXPIRE_MS) 30227000;
    ActSend "a@b.com" 31668000 sample_rnd Delivered 31669000 ].

Definition w10 : World := run ten_sends_run w0.

(** A send committed at 1 000 000, its code validated, and a second send
    committed eleven seconds after the first. *)
Definition w_resent : World :=
  run [ ActSend "a@b.com" 999000 sample_rnd Delivered 1000000;
        ActValidate "a@b.com" "123456";
        ActSend "a@b.com" 1010000 (fun _ => 7%nat) Delivered 1011000 ] w0.

(** A send committed at 1 000 000 and a second one requested and committed
    exactly one base interval later. *)
Definition w_boundary : World :=
  run [ ActSend "a@b.com" 999000 sample_rnd Delivered 1000000;
        ActSend "a@b.com" 1060000 (fun _ => 7%nat) Delivered 1060000 ] w0.

(** ** Vocabulary of the further properties *)

Definition is_decimal_digit (c : ascii) : bool :=
  (Nat.leb 48 (nat_of_ascii c) && Nat.leb (nat_of_ascii c) 57)%bool.

(** [l.join(sep)] for a one-character separator. *)
Fixpoint join (sep : ascii) (l : list string) : string :=
  match l with
  | [] => EmptyString
  | [s] => s
  | s :: rest => s ++ String sep (join sep rest)
  end.

(** What every record of a reachable store satisfies. *)
Definition entry_consistent (e : OTPEntry) : Prop :=
  0 <= recentSendCount e /\ (lastSendTime e = None <-> recentSendCount e = 0).

(** The firing of a timer registered by [scheduleOtpExpiry]. *)
Definition is_guarded_fire (a : Action) : Prop :=
  match a with
  | ActFire (GuardedExpiry _ _ _) _ => True
  | _ => False
  end.

(** The invariant of the store: every record is consistent, and a record
    with a [lastSendTime] has the expiry timer of that commit registered. *)
Definition store_consistent (w : World) : Prop :=
  forall email e, OTP w !! email = Some e ->
    entry_consistent e /\
    (forall t, lastSendTime e = Some t -> GuardedExpiry email t OTP_EXPIRE_MS ∈ timers w).


(** A string of ASCII characters only. *)
Definition is_ascii (s : string) : bool :=
  forallb (fun c => Nat.ltb (nat_of_ascii c) 128) (list_ascii_of_string s).





(** * Properties *)

(** ** Library functions *)

Lemma ceil_div_spec x d :
  0 < d -> d * (ceil_div x d - 1) < x <= d * ceil_div x d.
Proof.
  intros Hd. unfold ceil_div.
  pose proof (Z.div_mod (- x) d ltac:(lia)) as Hdm.
  pose proof (Z.mod_pos_bound (- x) d Hd) as Hb.
  nia.
Qed.

Lemma ceil_div_pos x d : 0 < d -> 0 < x -> 1 <= ceil_div x d.
Proof. intros Hd Hx. pose proof (ceil_div_spec x d Hd). nia. Qed.

Lemma ceil_div_mono x y d : 0 < d -> x <= y -> ceil_div x d <= ceil_div y d.
Proof.
  intros Hd Hxy.
  pose proof (ceil_div_spec x d Hd). pose proof (ceil_div_spec y d Hd). nia.
Qed.

Lemma includes_true l x : includes l x = true <-> x ∈ l.
Proof. unfold includes. apply bool_decide_eq_true. Qed.


Lemma split_segments_no_sep sep s :
  sep ∉ list_ascii_of_string s -> split_segments sep s = (s, []).
Proof.
  induction s as [|c s IH]; simpl; intros Hn; [reflexivity|].
  rewrite IH by (intros Hin; apply Hn; right; exact Hin).
  destruct (Ascii.eqb_spec c sep) as [->|Hne]; [|reflexivity].
  exfalso. apply Hn. left.
Qed.

Lemma split_no_sep sep s : sep ∉ list_ascii_of_string s -> split sep s = [s].
Proof. intros Hn. unfold split. rewrite split_segments_no_sep by exact Hn. reflexivity. Qed.

Lemma split_segments_app sep l r :
  sep ∉ list_ascii_of_string l ->
  split_segments sep (l ++ String sep r) = (l, split sep r).
Proof.
  induction l as [|c l IH]; simpl; intros Hn.
  - rewrite Ascii.eqb_refl. unfold split. destruct (split_segments sep r). reflexivity.
  - rewrite IH by (intros Hin; apply Hn; right; exact Hin).
    destruct (Ascii.eqb_spec c sep) as [->|Hne]; [|reflexivity].
    exfalso. apply Hn. left.
Qed.


(** ** [sendOTP], path by path *)

Ltac js_unfold :=
  unfold sendOTP, try_catch, provider_of, generateOTP, sendMail,
    update_entry, entry_of, scheduleOtpExpiry, setTimeout, catch_SendOTP, log,
    validateOTP, fire, expiry_callback, bind, ret, throw, gets, modify, with_OTP in *;
  simpl in *.

Lemma sendOTP_no_segment email now rnd d now' w :
  split "@"%char email !! 1%nat = None ->
  sendOTP email now rnd d now' w =
    (Normal {| msg := msg_failure; valid := false |},
     mkWorld (OTP w) (disposableMails w) (timers w) (outbox w)
       (logged w ++ [ {| log_error := "SendOTP error";
                         log_details := TypeError "Cannot read properties of undefined (reading 'toLowerCase')" |} ])).
Proof. intros H. js_unfold. rewrite H. reflexivity. Qed.

Lemma sendOTP_disposable email seg now rnd d now' w :
  split "@"%char email !! 1%nat = Some seg ->
  includes (disposableMails w) (toLowerCase seg) = true ->
  sendOTP email now rnd d now' w = (Normal {| msg := msg_disposable; valid := false |}, w).
Proof. intros H Hd. js_unfold. rewrite H. simpl. rewrite Hd. reflexivity. Qed.

Lemma sendOTP_denied email seg now rnd d now' w r :
  split "@"%char email !! 1%nat = Some seg ->
  includes (disposableMails w) (toLowerCase seg) = false ->
  backoff_denial (OTP w !! email) now = Some r ->
  sendOTP email now rnd d now' w = (Normal r, w).
Proof. intros H Hd Hb. js_unfold. rewrite H. simpl. rewrite Hd, Hb. reflexivity. Qed.

Lemma sendOTP_rejected email seg now rnd now' w :
  split "@"%char email !! 1%nat = Some seg ->
  includes (disposableMails w) (toLowerCase seg) = false ->
  backoff_denial (OTP w !! email) now = None ->
  sendOTP email now rnd Rejected now' w =
    (Normal {| msg := msg_failure; valid := false |},
     mkWorld (<[email := fresh_entry (random_code rnd) (OTP w !! email)]> (OTP w))
       (disposableMails w) (timers w)
       (outbox w ++ [otp_mail email (random_code rnd)])
       (logged w ++ [ {| log_error := "SendOTP error"; log_details := DeliveryError |} ])).
Proof.
  intros H Hd Hb. js_unfold. rewrite H. simpl. rewrite Hd, Hb.
  rewrite lookup_insert_eq. reflexivity.
Qed.

Lemma sendOTP_delivered email seg now rnd now' w :
  split "@"%char email !! 1%nat = Some seg ->
  includes (disposableMails w) (toLowerCase seg) = false ->
  backoff_denial (OTP w !! email) now = None ->
  sendOTP email now rnd Delivered now' w =
    (Normal {| msg := msg_sent; valid := true |},
     mkWorld
       (<[email := incr_recentSendCount
                     (set_lastSendTime now' (fresh_entry (random_code rnd) (OTP w !! email)))]>
          (OTP w))
       (disposableMails w)
       (timers w ++ [GuardedExpiry email now' OTP_EXPIRE_MS])
       (outbox w ++ [otp_mail email (random_code rnd)])
       (logged w)).
Proof.
  intros H Hd Hb. js_unfold. rewrite H. simpl. rewrite Hd, Hb.
  repeat (rewrite lookup_insert_eq; simpl).
  rewrite !insert_insert_eq. reflexivity.
Qed.

(** ** The rate-limit block *)

Lemma backoff_no_record now : backoff_denial None now = None.
Proof. reflexivity. Qed.

Lemma backoff_no_time e now :
  truthy (lastSendTime e) = false -> backoff_denial (Some e) now = None.
Proof. intros H. unfold backoff_denial. rewrite H. reflexivity. Qed.

Lemma backoff_allows e last now :
  lastSendTime e = Some last ->
  OTP_RATE_LIMIT_MS * 2 ^ Z.max 0 (recentSendCount e - 1) <= now - last ->
  backoff_denial (Some e) now = None.
Proof.
  intros Hl Hle. unfold backoff_denial. rewrite Hl.
  destruct (negb (truthy (Some last))); [reflexivity|].
  destruct (Z.ltb_spec (now - last) (OTP_RATE_LIMIT_MS * 2 ^ Z.max 0 (recentSendCount e - 1)));
    [lia | reflexivity].
Qed.

Lemma backoff_denies e last now :
  lastSendTime e = Some last -> last <> 0 ->
  now - last < OTP_RATE_LIMIT_MS * 2 ^ Z.max 0 (recentSendCount e - 1) ->
  backoff_denial (Some e) now =
    Some {| msg := spec_wait_message
                     (Z.min (ceil_div (OTP_RATE_LIMIT_MS * 2 ^ Z.max 0 (recentSendCount e - 1)
                                       - (now - last)) 1000)
                            (OTP_EXPIRE_MS / 1000));
            valid := false |}.
Proof.
  intros Hl Hnz Hlt. unfold backoff_denial. rewrite Hl. simpl.
  destruct (Z.eqb_spec last 0) as [|_]; [contradiction|]. simpl.
  set (limit := OTP_RATE_LIMIT_MS * 2 ^ Z.max 0 (recentSendCount e - 1)) in *.
  destruct (Z.ltb_spec (now - last) limit) as [_|]; [|lia].
  change (ceil_div OTP_EXPIRE_MS 1000) with 21600.
  change (OTP_EXPIRE_MS / 1000) with 21600.
  set (secs := Z.min (ceil_div (limit - (now - last)) 1000) 21600).
  assert (Hsecs : 1 <= secs).
  { pose proof (ceil_div_pos (limit - (now - last)) 1000). subst secs. lia. }
  unfold spec_wait_message.
  destruct (Z.ltb_spec 120 secs) as [Hm|Hs].
  - assert (3 <= ceil_div secs 60).
    { pose proof (ceil_div_spec secs 60). lia. }
    destruct (Z.ltb_spec 1 (ceil_div secs 60)); [|lia].
    destruct (Z.eqb_spec (ceil_div secs 60) 1); [lia|]. reflexivity.
  - destruct (Z.ltb_spec 1 secs), (Z.eqb_spec secs 1); try lia; reflexivity.
Qed.

(** ** [validateOTP], [generateOTP] and the expiry callback *)

Lemma validateOTP_accepts email otp w e :
  OTP w !! email = Some e -> otp <> "" -> code e = otp ->
  validateOTP email otp w = (Normal true, with_OTP (delete email) w).
Proof.
  intros He Hne Hc. js_unfold. rewrite He.
  destruct (String.eqb_spec otp "") as [|_]; [contradiction|]. simpl.
  destruct (String.eqb_spec (code e) otp); [reflexivity | contradiction].
Qed.

Lemma validateOTP_cases email otp w :
  (exists e, OTP w !! email = Some e /\ otp <> "" /\ code e = otp /\
             validateOTP email otp w = (Normal true, with_OTP (delete email) w)) \/
  ((forall e, OTP w !! email = Some e -> otp = "" \/ code e <> otp) /\
   validateOTP email otp w = (Normal false, w)).
Proof.
  js_unfold. destruct (String.eqb_spec otp "") as [->|Hne]; simpl.
  - right. split; [intros; left; reflexivity | reflexivity].
  - destruct (OTP w !! email) as [e|] eqn:He.
    + destruct (String.eqb_spec (code e) otp) as [Hc|Hc].
      * left. exists e. repeat split; assumption.
      * right. split; [|reflexivity]. intros e' [= <-]. right. exact Hc.
    + right. split; [intros e' [=] | reflexivity].
Qed.

Lemma generateOTP_run email rnd w :
  generateOTP email rnd w =
    (Normal tt, with_OTP (insert email (fresh_entry (random_code rnd) (OTP w !! email))) w).
Proof. reflexivity. Qed.

Lemma expiry_callback_run email expected now w :
  expiry_callback email expected now w =
    (Normal tt,
     match OTP w !! email ≫= lastSendTime with
     | Some last =>
         if (negb (last =? 0) &&
             ((Z.abs (last - expected) <=? OTP_EXPIRE_TOLERANCE_MS) &&
              (OTP_EXPIRE_MS - OTP_EXPIRE_TOLERANCE_MS <=? now - last)))%bool
         then with_OTP (delete email) w else w
     | None => w
     end).
Proof.
  js_unfold. destruct (OTP w !! email ≫= lastSendTime) as [last|]; simpl; [|reflexivity].
  destruct (last =? 0); simpl; [reflexivity|].
  unfold Math_abs.
  destruct ((Z.abs (last - expected) <=? OTP_EXPIRE_TOLERANCE_MS) &&
            (OTP_EXPIRE_MS - OTP_EXPIRE_TOLERANCE_MS <=? now - last))%bool; reflexivity.
Qed.

(** ** Calls for one address leave the other records alone *)

Lemma sendOTP_other email address now rnd d now' w :
  email <> address ->
  OTP (snd (sendOTP email now rnd d now' w)) !! address = OTP w !! address.
Proof.
  intros Hne.
  destruct (split "@"%char email !! 1%nat) as [seg|] eqn:Hs.
  2: { rewrite sendOTP_no_segment by exact Hs. reflexivity. }
  destruct (includes (disposableMails w) (toLowerCase seg)) eqn:Hd.
  { rewrite (sendOTP_disposable _ _ _ _ _ _ _ Hs Hd). reflexivity. }
  destruct (backoff_denial (OTP w !! email) now) as [r|] eqn:Hb.
  { rewrite (sendOTP_denied _ _ _ _ _ _ _ _ Hs Hd Hb). reflexivity. }
  destruct d.
  - rewrite (sendOTP_delivered _ _ _ _ _ _ Hs Hd Hb). simpl.
    apply lookup_insert_ne. exact Hne.
  - rewrite (sendOTP_rejected _ _ _ _ _ _ Hs Hd Hb). simpl.
    apply lookup_insert_ne. exact Hne.
Qed.

Lemma step_keeps_absent address a w :
  no_generation_for address a ->
  OTP w !! address = None -> OTP (step a w) !! address = None.
Proof.
  intros Hng Habs. destruct a as [email now rnd d now'|email otp|t now]; simpl in *.
  - rewrite sendOTP_other by exact Hng. exact Habs.
  - destruct (validateOTP_cases email otp w) as [(e & _ & _ & _ & ->)|[_ ->]]; simpl.
    + rewrite lookup_delete. case_decide; [reflexivity | exact Habs].
    + exact Habs.
  - destruct t as [email expected delay|email delay]; simpl.
    + rewrite expiry_callback_run. simpl.
      destruct (OTP w !! email ≫= lastSendTime) as [last|]; [|exact Habs].
      match goal with |- context [if ?b then _ else _] => destruct b end; simpl.
      * rewrite lookup_delete. case_decide; [reflexivity | exact Habs].
      * exact Habs.
    + rewrite lookup_delete. case_decide; [reflexivity | exact Habs].
Qed.

Lemma run_keeps_absent address acts w :
  Forall (no_generation_for address) acts ->
  OTP w !! address = None -> OTP (run acts w) !! address = None.
Proof.
  intros Hall. revert w. induction Hall as [|a acts Ha _ IH]; intros w Habs.
  - exact Habs.
  - simpl. apply IH. apply step_keeps_absent; assumption.
Qed.

(** ** Validation *)

(** C3. A code validates at most once: once [validateOTP address otp] has
    answered [true], the same call answers [false] after any sequence of
    calls (validations, expiry timers, sends for other addresses) that does
    not generate a code for the address. *)
Theorem C3_validateOTP_true_at_most_once address otp w w' acts :
  validateOTP address otp w = (Normal true, w') ->
  Forall (no_generation_for address) acts ->
  validateOTP address otp (run acts w') = (Normal false, run acts w').
Proof.
  intros Hv Hacts.
  assert (Habs : OTP w' !! address = None).
  { destruct (validateOTP_cases address otp w) as [(e & _ & _ & _ & Heq)|[_ Heq]];
      rewrite Heq in Hv; [|discriminate].
    injection Hv as <-. simpl. apply lookup_delete_eq. }
  pose proof (run_keeps_absent address acts w' Hacts Habs) as Hrun.
  destruct (validateOTP_cases address otp (run acts w')) as [(e & He & _)|[_ Heq]].
  - rewrite Hrun in He. discriminate.
  - exact Heq.
Qed.

Lemma C3_witness :
  validateOTP "a@b.com" "123456"
    (run sample_other_calls (snd (validateOTP "a@b.com" "123456" w1)))
  = (Normal false, run sample_other_calls (snd (validateOTP "a@b.com" "123456" w1))).
Proof.
  apply (C3_validateOTP_true_at_most_once "a@b.com" "123456" w1).
  - vm_compute. reflexivity.
  - unfold sample_other_calls. repeat constructor. simpl. discriminate.
Defined.

(** C4. [validateOTP] answers [true] and deletes the record exactly when a
    record exists, the submitted code is not empty and it equals the stored
    code; otherwise it answers [false] and the whole state is unchanged, so
    that the stored code still validates afterwards. *)
Theorem C4_validateOTP_iff email otp w :
  let accepted := exists e, OTP w !! email = Some e /\ otp <> "" /\ code e = otp in
  (accepted -> validateOTP email otp w = (Normal true, with_OTP (delete email) w)
               /\ OTP (with_OTP (delete email) w) !! email = None) /\
  (~ accepted -> validateOTP email otp w = (Normal false, w)) /\
  (~ accepted -> forall e, OTP w !! email = Some e -> code e <> "" ->
     validateOTP email (code e) (snd (validateOTP email otp w))
     = (Normal true, with_OTP (delete email) w)).
Proof.
  intros accepted.
  assert (Hno : ~ accepted -> validateOTP email otp w = (Normal false, w)).
  { intros Hn. destruct (validateOTP_cases email otp w) as [(e & He & Hne & Hc & _)|[_ Heq]].
    - exfalso. apply Hn. exists e. auto.
    - exact Heq. }
  split; [|split].
  - intros (e & He & Hne & Hc). split.
    + eapply validateOTP_accepts; eassumption.
    + simpl. apply lookup_delete_eq.
  - exact Hno.
  - intros Hn e He Hne. rewrite (Hno Hn). simpl.
    eapply validateOTP_accepts; eauto.
Qed.

Lemma C4_witness :
  (validateOTP "a@b.com" "123456" w1 = (Normal true, with_OTP (delete "a@b.com") w1)
   /\ OTP (with_OTP (delete "a@b.com") w1) !! "a@b.com" = None) /\
  validateOTP "a@b.com" "654321" w1 = (Normal false, w1) /\
  validateOTP "a@b.com" "123456" (snd (validateOTP "a@b.com" "654321" w1))
  = (Normal true, with_OTP (delete "a@b.com") w1).
Proof.
  assert (Hrec : OTP w1 !! "a@b.com"
                 = Some {| code := "123456"; lastSendTime := Some 1000000; recentSendCount := 1 |}).
  { vm_compute. reflexivity. }
  assert (Hwrong : ~ exists e, OTP w1 !! "a@b.com" = Some e /\ "654321" <> "" /\ code e = "654321").
  { intros (e & He & _ & Hc). rewrite Hrec in He. injection He as <-. discriminate Hc. }
  split; [|split].
  - apply (proj1 (C4_validateOTP_iff "a@b.com" "123456" w1)).
    eexists. split; [exact Hrec|]. split; [discriminate | reflexivity].
  - apply (proj1 (proj2 (C4_validateOTP_iff "a@b.com" "654321" w1))). exact Hwrong.
  - apply (proj2 (proj2 (C4_validateOTP_iff "a@b.com" "654321" w1)) Hwrong _ Hrec).
    discriminate.
Defined.

(** ** Generation *)

(** C5. [generateOTP] replaces only the code of an existing record, keeping
    its [lastSendTime] and [recentSendCount]; without a record it creates one
    with count 0 and no [lastSendTime].  Nothing else changes. *)
Theorem C5_generateOTP_keeps_rate_state email rnd w :
  exists w',
    generateOTP email rnd w = (Normal tt, w') /\
    (forall e, OTP w !! email = Some e ->
       OTP w' !! email = Some {| code := random_code rnd;
                                 lastSendTime := lastSendTime e;
                                 recentSendCount := recentSendCount e |}) /\
    (OTP w !! email = None ->
       OTP w' !! email = Some {| code := random_code rnd;
                                 lastSendTime := None;
                                 recentSendCount := 0 |}) /\
    (forall other, other <> email -> OTP w' !! other = OTP w !! other) /\
    timers w' = timers w /\ outbox w' = outbox w /\ logged w' = logged w /\
    disposableMails w' = disposableMails w.
Proof.
  eexists. split; [apply generateOTP_run|]. simpl.
  split; [|split; [|split]].
  - intros e He. rewrite He. apply lookup_insert_eq.
  - intros He. rewrite He. apply lookup_insert_eq.
  - intros other Hne. apply lookup_insert_ne. congruence.
  - repeat split.
Qed.

Lemma C5_witness :
  OTP (snd (generateOTP "a@b.com" (fun _ => 7%nat) w1)) !! "a@b.com"
    = Some {| code := "777777"; lastSendTime := Some 1000000; recentSendCount := 1 |} /\
  OTP (snd (generateOTP "a@b.com" (fun _ => 7%nat) w0)) !! "a@b.com"
    = Some {| code := "777777"; lastSendTime := None; recentSendCount := 0 |}.
Proof.
  split.
  - destruct (C5_generateOTP_keeps_rate_state "a@b.com" (fun _ => 7%nat) w1)
      as (w' & Hrun & Hsome & _).
    rewrite Hrun. simpl.
    apply (Hsome {| code := "123456"; lastSendTime := Some 1000000; recentSendCount := 1 |}).
    vm_compute. reflexivity.
  - destruct (C5_generateOTP_keeps_rate_state "a@b.com" (fun _ => 7%nat) w0)
      as (w' & Hrun & _ & Hnone & _).
    rewrite Hrun. simpl. apply Hnone. vm_compute. reflexivity.
Defined.

(** ** The rate limiter *)

Lemma backoff_denial_invalid entry now r :
  backoff_denial entry now = Some r -> valid r = false.
Proof.
  unfold backoff_denial. intros H.
  repeat match type of H with
         | match ?x with _ => _ end = _ => destruct x; try discriminate
         | (if ?b then _ else _) = _ => destruct b; try discriminate
         end;
    injection H as <-; reflexivity.
Qed.

(** A call that answers [valid = true] went through the whole commit. *)
Lemma sendOTP_committed email now rnd now' w r w' :
  sendOTP email now rnd Delivered now' w = (Normal r, w') -> valid r = true ->
  exists seg,
    split "@"%char email !! 1%nat = Some seg /\
    includes (disposableMails w) (toLowerCase seg) = false /\
    backoff_denial (OTP w !! email) now = None /\
    OTP w' = <[email := incr_recentSendCount
                 (set_lastSendTime now' (fresh_entry (random_code rnd) (OTP w !! email)))]> (OTP w) /\
    disposableMails w' = disposableMails w.
Proof.
  intros Hrun Hvalid.
  destruct (split "@"%char email !! 1%nat) as [seg|] eqn:Hs.
  2: { rewrite sendOTP_no_segment in Hrun by exact Hs.
       injection Hrun as <- _. discriminate Hvalid. }
  destruct (includes (disposableMails w) (toLowerCase seg)) eqn:Hd.
  { rewrite (sendOTP_disposable _ _ _ _ _ _ _ Hs Hd) in Hrun.
    injection Hrun as <- _. discriminate Hvalid. }
  destruct (backoff_denial (OTP w !! email) now) as [r0|] eqn:Hb.
  { rewrite (sendOTP_denied _ _ _ _ _ _ _ _ Hs Hd Hb) in Hrun.
    injection Hrun as <- _. rewrite (backoff_denial_invalid _ _ _ Hb) in Hvalid.
    discriminate Hvalid. }
  rewrite (sendOTP_delivered _ _ _ _ _ _ Hs Hd Hb) in Hrun.
  injection Hrun as _ <-. exists seg. simpl. repeat split. exact Hd.
Qed.

(** After a non-empty run of committed sends the count has grown by their
    number and [lastSendTime] is the last commit's clock reading. *)
Lemma committed_sends_record email sends :
  forall w w' s0,
    committed_sends email sends w = Some w' -> sends <> [] ->
    exists e seg,
      OTP w' !! email = Some e /\
      recentSendCount e
        = default 0 (recentSendCount <$> OTP w !! email) + Z.of_nat (length sends) /\
      lastSendTime e = Some (send_commit (List.last sends s0)) /\
      split "@"%char email !! 1%nat = Some seg /\
      includes (disposableMails w') (toLowerCase seg) = false.
Proof.
  induction sends as [|s rest IH]; intros w w' s0 Hrun Hne; [contradiction|].
  simpl in Hrun.
  destruct (sendOTP email (send_now s) (send_rnd s) Delivered (send_commit s) w)
    as [[r|err] w1] eqn:Hstep; [|discriminate].
  destruct (valid r) eqn:Hvalid; [|discriminate].
  destruct (sendOTP_committed _ _ _ _ _ _ _ Hstep Hvalid) as (seg & Hs & Hd & _ & Hotp & Hdm).
  assert (H1 : OTP w1 !! email
               = Some (incr_recentSendCount (set_lastSendTime (send_commit s)
                         (fresh_entry (random_code (send_rnd s)) (OTP w !! email))))).
  { rewrite Hotp. apply lookup_insert_eq. }
  destruct rest as [|s' rest'].
  - simpl in Hrun. injection Hrun as <-.
    eexists _, seg. split; [exact H1|]. simpl.
    rewrite Hdm. repeat split; assumption.
  - destruct (IH w1 w' s0 Hrun ltac:(discriminate)) as (e & seg' & He & Hc & Hl & Hs' & Hd').
    exists e, seg'. split; [exact He|]. split; [|split; [|split]]; try assumption.
    rewrite Hc, H1. simpl default.
    change (length (s :: s' :: rest')) with (S (length (s' :: rest'))). lia.
Qed.

Lemma prefix_append s t : String.prefix s (s ++ t) = true.
Proof.
  induction s as [|c s IH]; simpl.
  - destruct t; reflexivity.
  - destruct (ascii_dec c c); [exact IH | contradiction].
Qed.

Lemma spec_wait_message_prefix seconds :
  String.prefix "Veuillez attendre " (spec_wait_message seconds) = true.
Proof. unfold spec_wait_message. apply prefix_append. Qed.

(** C6. A call that the rate limiter denies (a record whose [lastSendTime]
    is set, and less time elapsed than the limit) answers [valid = false]
    and leaves the store as it was: the record, and with it [lastSendTime]
    and [recentSendCount], is the same after the call; no timer is
    registered and no mail handed over.  A [lastSendTime] of 0 is read as
    unset by the source, hence the side condition. *)
Theorem C6_denied_request_keeps_record email w e last now rnd d now' :
  OTP w !! email = Some e -> lastSendTime e = Some last -> last <> 0 ->
  now - last < OTP_RATE_LIMIT_MS * 2 ^ Z.max 0 (recentSendCount e - 1) ->
  exists r w',
    sendOTP email now rnd d now' w = (Normal r, w') /\ valid r = false /\
    OTP w' = OTP w /\ OTP w' !! email = Some e /\
    timers w' = timers w /\ outbox w' = outbox w /\
    (forall seg, split "@"%char email !! 1%nat = Some seg ->
       includes (disposableMails w) (toLowerCase seg) = false ->
       w' = w /\ String.prefix "Veuillez attendre " (msg r) = true).
Proof.
  intros He Hl Hnz Hlt.
  destruct (split "@"%char email !! 1%nat) as [seg|] eqn:Hs.
  2: { rewrite sendOTP_no_segment by exact Hs. eexists _, _. split; [reflexivity|].
       simpl. repeat split; try assumption; discriminate. }
  destruct (includes (disposableMails w) (toLowerCase seg)) eqn:Hd.
  { rewrite (sendOTP_disposable _ _ _ _ _ _ _ Hs Hd). eexists _, _. split; [reflexivity|].
    simpl. repeat split; try assumption; congruence. }
  pose proof (backoff_denies e last now Hl Hnz Hlt) as Hb. rewrite <- He in Hb.
  rewrite (sendOTP_denied _ _ _ _ _ _ _ _ Hs Hd Hb). eexists _, _. split; [reflexivity|].
  simpl. repeat split; try assumption.
  apply spec_wait_message_prefix.
Qed.

Lemma C6_witness :
  exists r w',
    sendOTP "a@b.com" 1030000 sample_rnd Delivered 1030500 w1 = (Normal r, w') /\
    valid r = false /\ OTP w' = OTP w1 /\
    OTP w' !! "a@b.com"
      = Some {| code := "123456"; lastSendTime := Some 1000000; recentSendCount := 1 |}.
Proof.
  destruct (C6_denied_request_keeps_record "a@b.com" w1
              {| code := "123456"; lastSendTime := Some 1000000; recentSendCount := 1 |}
              1000000 1030000 sample_rnd Delivered 1030500)
    as (r & w' & Hrun & Hv & Hotp & Hrec & _).
  - vm_compute. reflexivity.
  - reflexivity.
  - lia.
  - vm_compute. reflexivity.
  - exists r, w'. repeat split; assumption.
Defined.

(** C1. For a record with a [lastSendTime], the wait [sendOTP] requires is
    [OTP_RATE_LIMIT_MS * 2 ^ max 0 (recentSendCount - 1)]: a request at
    least that long after [lastSendTime] goes through to a committed send,
    an earlier one is denied.  After [N >= 1] consecutive committed sends
    from an address without a record the count is [N], so the wait before
    the next request is [OTP_RATE_LIMIT_MS * 2 ^ (N - 1)].  (A [lastSendTime]
    of 0 is read as unset by the source: such a record is never denied.) *)
Theorem C1_backoff_wait_doubles :
  (forall email seg w e last now rnd now',
     split "@"%char email !! 1%nat = Some seg ->
     includes (disposableMails w) (toLowerCase seg) = false ->
     OTP w !! email = Some e -> lastSendTime e = Some last ->
     let limit := OTP_RATE_LIMIT_MS * 2 ^ Z.max 0 (recentSendCount e - 1) in
     (limit <= now - last ->
        fst (sendOTP email now rnd Delivered now' w)
        = Normal {| msg := msg_sent; valid := true |}) /\
     (last <> 0 -> now - last < limit ->
        exists r, sendOTP email now rnd Delivered now' w = (Normal r, w) /\ valid r = false)) /\
  (forall email sends s w w' now rnd now',
     OTP w !! email = None ->
     committed_sends email (sends ++ [s]) w = Some w' ->
     let N := Z.of_nat (length (sends ++ [s])) in
     let limit := OTP_RATE_LIMIT_MS * 2 ^ (N - 1) in
     (exists e, OTP w' !! email = Some e /\ recentSendCount e = N /\
                lastSendTime e = Some (send_commit s)) /\
     (limit <= now - send_commit s ->
        fst (sendOTP email now rnd Delivered now' w')
        = Normal {| msg := msg_sent; valid := true |}) /\
     (send_commit s <> 0 -> now - send_commit s < limit ->
        exists r, sendOTP email now rnd Delivered now' w' = (Normal r, w') /\ valid r = false)).
Proof.
  assert (Hgen : forall email seg w e last now rnd now',
     split "@"%char email !! 1%nat = Some seg ->
     includes (disposableMails w) (toLowerCase seg) = false ->
     OTP w !! email = Some e -> lastSendTime e = Some last ->
     (OTP_RATE_LIMIT_MS * 2 ^ Z.max 0 (recentSendCount e - 1) <= now - last ->
        fst (sendOTP email now rnd Delivered now' w)
        = Normal {| msg := msg_sent; valid := true |}) /\
     (last <> 0 -> now - last < OTP_RATE_LIMIT_MS * 2 ^ Z.max 0 (recentSendCount e - 1) ->
        exists r, sendOTP email now rnd Delivered now' w = (Normal r, w) /\ valid r = false)).
  { intros email seg w e last now rnd now' Hs Hd He Hl. split.
    - intros Hle. pose proof (backoff_allows e last now Hl Hle) as Hb. rewrite <- He in Hb.
      rewrite (sendOTP_delivered _ _ _ _ _ _ Hs Hd Hb). reflexivity.
    - intros Hnz Hlt. pose proof (backoff_denies e last now Hl Hnz Hlt) as Hb.
      rewrite <- He in Hb. rewrite (sendOTP_denied _ _ _ _ _ _ _ _ Hs Hd Hb).
      eexists. split; reflexivity. }
  split; [exact Hgen|].
  intros email sends s w w' now rnd now' Habs Hrun N limit.
  destruct (committed_sends_record email (sends ++ [s]) w w' s Hrun)
    as (e & seg & He & Hc & Hl & Hs & Hd).
  { destruct sends; discriminate. }
  rewrite Habs in Hc. simpl in Hc. rewrite last_last in Hl.
  assert (HN : 1 <= N).
  { subst N. rewrite length_app. simpl. lia. }
  assert (Hlim : OTP_RATE_LIMIT_MS * 2 ^ Z.max 0 (recentSendCount e - 1) = limit).
  { subst limit. rewrite Hc. fold N. rewrite Z.max_r by lia. reflexivity. }
  destruct (Hgen email seg w' e (send_commit s) now rnd now' Hs Hd He Hl) as [Hok Hdeny].
  rewrite Hlim in Hok, Hdeny.
  split; [|split]; [|exact Hok|exact Hdeny].
  exists e. repeat split; assumption.
Qed.

Lemma C1_witness :
  fst (sendOTP "a@b.com" 1060000 sample_rnd Delivered 1061000 w1)
    = Normal {| msg := msg_sent; valid := true |} /\
  (exists e, OTP w2 !! "a@b.com" = Some e /\ recentSendCount e = 2 /\
             lastSendTime e = Some 1061000) /\
  fst (sendOTP "a@b.com" 1181000 sample_rnd Delivered 1182000 w2)
    = Normal {| msg := msg_sent; valid := true |} /\
  (exists r, sendOTP "a@b.com" 1180999 sample_rnd Delivered 1182000 w2 = (Normal r, w2)
             /\ valid r = false).
Proof.
  assert (Hrun : committed_sends "a@b.com"
                   ([mkSend 999000 sample_rnd 1000000] ++ [mkSend 1060000 sample_rnd 1061000]) w0
                 = Some w2).
  { vm_compute. reflexivity. }
  assert (Habs : OTP w0 !! "a@b.com" = None) by reflexivity.
  split; [|split; [|split]].
  - refine (proj1 (proj1 C1_backoff_wait_doubles "a@b.com" "b.com" w1
                     {| code := "123456"; lastSendTime := Some 1000000; recentSendCount := 1 |}
                     1000000 1060000 sample_rnd 1061000 _ _ _ _) _).
    + reflexivity.
    + vm_compute. reflexivity.
    + vm_compute. reflexivity.
    + reflexivity.
    + vm_compute. discriminate.
  - apply (proj2 C1_backoff_wait_doubles _ _ _ _ _ 0 sample_rnd 0 Habs Hrun).
  - apply (proj2 C1_backoff_wait_doubles _ _ _ _ _ 1181000 sample_rnd 1182000 Habs Hrun).
    simpl. vm_compute. discriminate.
  - apply (proj2 C1_backoff_wait_doubles _ _ _ _ _ 1180999 sample_rnd 1182000 Habs Hrun).
    + simpl. discriminate.
    + simpl. vm_compute. reflexivity.
Defined.

(** The sample run does reach a record with ten committed sends. *)
Example w10_record :
  OTP w10 !! "a@b.com"
  = Some {| code := "123456"; lastSendTime := Some 31669000; recentSendCount := 10 |}.
Proof. vm_compute. reflexivity. Qed.

(** C7, as stated, fails.  After ten committed sends the limit the source
    compares with is 60000 * 2^9 = 30 720 000 ms, above the validity window
    of 21 600 000 ms.  One hour after the last commit the source reports
    360 minutes, the clamp of ceil((30 720 000 - 3 600 000) / 1000) s; with
    the capped limit the wait is ceil((21 600 000 - 3 600 000) / 1000) s,
    300 minutes.  And a request 25 000 000 ms after the last commit, past
    the capped limit, is still denied when the record is still there (its
    expiry timer being late). *)
Lemma C7_counterexample :
  OTP w10 !! "a@b.com"
    = Some {| code := "123456"; lastSendTime := Some 31669000; recentSendCount := 10 |} /\
  sendOTP "a@b.com" (31669000 + 3600000) sample_rnd Delivered 35270000 w10
    = (Normal {| msg := "Veuillez attendre 360 minutes avant de demander à nouveau un code";
                 valid := false |}, w10) /\
  spec_wait_message
    (Z.min (ceil_div (spec_capped_limit 10 - 3600000) 1000) (OTP_EXPIRE_MS / 1000))
    = "Veuillez attendre 300 minutes avant de demander à nouveau un code" /\
  spec_capped_limit 10 <= 25000000 /\
  sendOTP "a@b.com" (31669000 + 25000000) sample_rnd Delivered 56670000 w10
    = (Normal {| msg := "Veuillez attendre 96 minutes avant de demander à nouveau un code";
                 valid := false |}, w10).
Proof.
  split; [|split; [|split; [|split]]].
  - vm_compute. reflexivity.
  - vm_compute. reflexivity.
  - vm_compute. reflexivity.
  - vm_compute. discriminate.
  - vm_compute. reflexivity.
Qed.

(** C7, amended.  The limit of the deny decision is
    [OTP_RATE_LIMIT_MS * 2 ^ exponent] with no cap.  A denied call reports
    [ceil((limit - elapsed) / 1000)] seconds clamped to the 21600 seconds of
    the validity window: in minutes (rounded up) when the clamped value
    exceeds 120, in seconds otherwise, in the singular exactly when the
    number shown is 1.  A call at or after the limit is not denied: the mail
    is handed to the transport. *)
Theorem C7_denial_message email seg w e last now rnd d now' :
  split "@"%char email !! 1%nat = Some seg ->
  includes (disposableMails w) (toLowerCase seg) = false ->
  OTP w !! email = Some e -> lastSendTime e = Some last -> last <> 0 ->
  let limit := OTP_RATE_LIMIT_MS * 2 ^ Z.max 0 (recentSendCount e - 1) in
  let seconds := Z.min (ceil_div (limit - (now - last)) 1000) (OTP_EXPIRE_MS / 1000) in
  (now - last < limit ->
     sendOTP email now rnd d now' w
       = (Normal {| msg := spec_wait_message seconds; valid := false |}, w) /\
     1 <= seconds <= 21600 /\
     1000 * (ceil_div (limit - (now - last)) 1000 - 1) < limit - (now - last)
       <= 1000 * ceil_div (limit - (now - last)) 1000) /\
  (limit <= now - last ->
     outbox (snd (sendOTP email now rnd d now' w))
       = (outbox w ++ [otp_mail email (random_code rnd)])%list).
Proof.
  intros Hs Hd He Hl Hnz limit seconds. split.
  - intros Hlt. pose proof (backoff_denies e last now Hl Hnz Hlt) as Hb.
    rewrite <- He in Hb. rewrite (sendOTP_denied _ _ _ _ _ _ _ _ Hs Hd Hb).
    split; [reflexivity|].
    pose proof (ceil_div_spec (limit - (now - last)) 1000 ltac:(lia)) as Hc.
    split; [|exact Hc].
    subst seconds. change (OTP_EXPIRE_MS / 1000) with 21600. lia.
  - intros Hle. pose proof (backoff_allows e last now Hl Hle) as Hb. rewrite <- He in Hb.
    destruct d.
    + rewrite (sendOTP_delivered _ _ _ _ _ _ Hs Hd Hb). reflexivity.
    + rewrite (sendOTP_rejected _ _ _ _ _ _ Hs Hd Hb). reflexivity.
Qed.

Lemma C7_witness :
  sendOTP "a@b.com" 1030000 sample_rnd Delivered 1030500 w1
    = (Normal {| msg := "Veuillez attendre 30 secondes avant de demander à nouveau un code";
                 valid := false |}, w1) /\
  sendOTP "a@b.com" 1059001 sample_rnd Delivered 1059500 w1
    = (Normal {| msg := "Veuillez attendre 1 seconde avant de demander à nouveau un code";
                 valid := false |}, w1) /\
  sendOTP "a@b.com" 31669000 sample_rnd Delivered 31669500 w10
    = (Normal {| msg := "Veuillez attendre 360 minutes avant de demander à nouveau un code";
                 valid := false |}, w10).
Proof.
  assert (Hs : split "@"%char "a@b.com" !! 1%nat = Some "b.com") by reflexivity.
  assert (H1 : OTP w1 !! "a@b.com"
               = Some {| code := "123456"; lastSendTime := Some 1000000; recentSendCount := 1 |}).
  { vm_compute. reflexivity. }
  split; [|split].
  - refine (proj1 (proj1 (C7_denial_message "a@b.com" "b.com" w1 _ 1000000 1030000
                            sample_rnd Delivered 1030500 Hs _ H1 _ _) _)).
    + vm_compute. reflexivity.
    + reflexivity.
    + discriminate.
    + vm_compute. reflexivity.
  - refine (proj1 (proj1 (C7_denial_message "a@b.com" "b.com" w1 _ 1000000 1059001
                            sample_rnd Delivered 1059500 Hs _ H1 _ _) _)).
    + vm_compute. reflexivity.
    + reflexivity.
    + discriminate.
    + vm_compute. reflexivity.
  - refine (proj1 (proj1 (C7_denial_message "a@b.com" "b.com" w10 _ 31669000 31669000
                            sample_rnd Delivered 31669500 Hs _ w10_record _ _) _)).
    + vm_compute. reflexivity.
    + reflexivity.
    + discriminate.
    + vm_compute. reflexivity.
Defined.

(** ** Delivery failure *)

(** C2, as stated, fails: [generateOTP] runs before the delivery, so after a
    failed delivery the stored code is the new one, and an address without a
    record has one. *)
Lemma C2_counterexample :
  fst (sendOTP "a@b.com" 1060000 (fun _ => 7%nat) Rejected 1061000 w1)
    = Normal {| msg := msg_failure; valid := false |} /\
  OTP w1 !! "a@b.com"
    = Some {| code := "123456"; lastSendTime := Some 1000000; recentSendCount := 1 |} /\
  OTP (snd (sendOTP "a@b.com" 1060000 (fun _ => 7%nat) Rejected 1061000 w1)) !! "a@b.com"
    = Some {| code := "777777"; lastSendTime := Some 1000000; recentSendCount := 1 |} /\
  OTP w0 !! "a@b.com" = None /\
  OTP (snd (sendOTP "a@b.com" 999000 sample_rnd Rejected 1000000 w0)) !! "a@b.com"
    = Some {| code := "123456"; lastSendTime := None; recentSendCount := 0 |}.
Proof. vm_compute. repeat split. Qed.

(** C2, amended.  When the rate limiter lets the request through and the
    delivery fails, [sendOTP] answers the generic failure message with
    [valid = false]; [lastSendTime] and [recentSendCount] of the address are
    as before, and no expiry timer is registered.  The code is the newly
    generated one; an address without a record gets one with count 0 and no
    [lastSendTime].  The other records are untouched. *)
Theorem C2_delivery_failure email seg w now rnd now' :
  split "@"%char email !! 1%nat = Some seg ->
  includes (disposableMails w) (toLowerCase seg) = false ->
  backoff_denial (OTP w !! email) now = None ->
  exists w',
    sendOTP email now rnd Rejected now' w
      = (Normal {| msg := msg_failure; valid := false |}, w') /\
    (forall e, OTP w !! email = Some e ->
       OTP w' !! email = Some {| code := random_code rnd;
                                 lastSendTime := lastSendTime e;
                                 recentSendCount := recentSendCount e |}) /\
    (OTP w !! email = None ->
       OTP w' !! email = Some {| code := random_code rnd;
                                 lastSendTime := None;
                                 recentSendCount := 0 |}) /\
    (forall other, other <> email -> OTP w' !! other = OTP w !! other) /\
    timers w' = timers w.
Proof.
  intros Hs Hd Hb. eexists. split; [apply (sendOTP_rejected _ _ _ _ _ _ Hs Hd Hb)|].
  simpl. split; [|split; [|split]].
  - intros e He. rewrite He. apply lookup_insert_eq.
  - intros He. rewrite He. apply lookup_insert_eq.
  - intros other Hne. apply lookup_insert_ne. congruence.
  - reflexivity.
Qed.

Lemma C2_witness :
  exists w',
    sendOTP "a@b.com" 1060000 (fun _ => 7%nat) Rejected 1061000 w1
      = (Normal {| msg := msg_failure; valid := false |}, w') /\
    OTP w' !! "a@b.com"
      = Some {| code := "777777"; lastSendTime := Some 1000000; recentSendCount := 1 |} /\
    timers w' = timers w1.
Proof.
  destruct (C2_delivery_failure "a@b.com" "b.com" w1 1060000 (fun _ => 7%nat) 1061000)
    as (w' & Hrun & Hsome & _ & _ & Ht).
  - reflexivity.
  - vm_compute. reflexivity.
  - vm_compute. reflexivity.
  - exists w'. split; [exact Hrun|]. split; [|exact Ht].
    apply (Hsome {| code := "123456"; lastSendTime := Some 1000000; recentSendCount := 1 |}).
    vm_compute. reflexivity.
Defined.

(** ** Expiry *)

(** C8, as stated, fails in its last part.  A timer whose commit has been
    superseded still deletes the record when the newer commit lies within
    the tolerance of the one it guards: here a second send committed eleven
    seconds after the first (the first code having been validated in
    between), and a second send requested and committed exactly one base
    interval after the first.  In both runs the first commit's timer, firing
    six hours after that commit, deletes the record of the second. *)
Lemma C8_counterexample :
  (timers w_resent = [ GuardedExpiry "a@b.com" 1000000 OTP_EXPIRE_MS;
                       GuardedExpiry "a@b.com" 1011000 OTP_EXPIRE_MS ] /\
   OTP w_resent !! "a@b.com"
     = Some {| code := "777777"; lastSendTime := Some 1011000; recentSendCount := 1 |} /\
   OTP (snd (fire (GuardedExpiry "a@b.com" 1000000 OTP_EXPIRE_MS)
                  (1000000 + OTP_EXPIRE_MS) w_resent)) !! "a@b.com" = None) /\
  (timers w_boundary = [ GuardedExpiry "a@b.com" 1000000 OTP_EXPIRE_MS;
                         GuardedExpiry "a@b.com" 1060000 OTP_EXPIRE_MS ] /\
   OTP w_boundary !! "a@b.com"
     = Some {| code := "777777"; lastSendTime := Some 1060000; recentSendCount := 2 |} /\
   OTP (snd (fire (GuardedExpiry "a@b.com" 1000000 OTP_EXPIRE_MS)
                  (1000000 + OTP_EXPIRE_MS) w_boundary)) !! "a@b.com" = None).
Proof. vm_compute. repeat split. Qed.

(** C8, amended.  When the timer registered at a commit fires, the record is
    deleted exactly when it still exists with a [lastSendTime] that is set,
    lies within the tolerance (60 s) of the clock reading captured at the
    commit, and is at least the validity window minus the tolerance old;
    otherwise nothing changes.  Hence a timer never deletes a record whose
    [lastSendTime] differs from the captured one by more than the tolerance;
    and a record still carrying the captured reading is deleted once six
    hours have passed. *)
Theorem C8_expiry_guard email expected now w :
  let w' := snd (fire (GuardedExpiry email expected OTP_EXPIRE_MS) now w) in
  let guard := exists e last,
    OTP w !! email = Some e /\ lastSendTime e = Some last /\ last <> 0 /\
    Z.abs (last - expected) <= OTP_EXPIRE_TOLERANCE_MS /\
    OTP_EXPIRE_MS - OTP_EXPIRE_TOLERANCE_MS <= now - last in
  (guard -> w' = with_OTP (delete email) w /\ OTP w' !! email = None) /\
  (~ guard -> w' = w) /\
  (forall e last, OTP w !! email = Some e -> lastSendTime e = Some last ->
     OTP_EXPIRE_TOLERANCE_MS < Z.abs (last - expected) ->
     w' = w /\ OTP w' !! email = Some e) /\
  (forall e, OTP w !! email = Some e -> lastSendTime e = Some expected ->
     expected <> 0 -> expected + OTP_EXPIRE_MS <= now ->
     OTP w' !! email = None).
Proof.
  intros w' guard.
  assert (Hyes : guard -> w' = with_OTP (delete email) w).
  { intros (e & last & He & Hl & Hnz & Hdelta & Hage).
    subst w'. simpl. rewrite expiry_callback_run. simpl. rewrite He. simpl. rewrite Hl.
    destruct (Z.eqb_spec last 0); [contradiction|].
    destruct (Z.leb_spec (Z.abs (last - expected)) OTP_EXPIRE_TOLERANCE_MS); [|lia].
    destruct (Z.leb_spec (OTP_EXPIRE_MS - OTP_EXPIRE_TOLERANCE_MS) (now - last)); [|lia].
    reflexivity. }
  assert (Hno : ~ guard -> w' = w).
  { intros Hn. subst w'. simpl. rewrite expiry_callback_run. simpl.
    destruct (OTP w !! email) as [e|] eqn:He; simpl; [|reflexivity].
    destruct (lastSendTime e) as [last|] eqn:Hl; [|reflexivity].
    destruct (Z.eqb_spec last 0); [reflexivity|].
    destruct (Z.leb_spec (Z.abs (last - expected)) OTP_EXPIRE_TOLERANCE_MS); [|reflexivity].
    destruct (Z.leb_spec (OTP_EXPIRE_MS - OTP_EXPIRE_TOLERANCE_MS) (now - last)); [|reflexivity].
    exfalso. apply Hn. exists e, last. repeat split; assumption. }
  split; [|split; [|split]].
  - intros Hg. rewrite (Hyes Hg). split; [reflexivity|]. simpl. apply lookup_delete_eq.
  - exact Hno.
  - intros e last He Hl Hfar.
    assert (Hn : ~ guard).
    { intros (e' & last' & He' & Hl' & _ & Hdelta & _).
      rewrite He in He'. injection He' as <-. rewrite Hl in Hl'. injection Hl' as <-. lia. }
    rewrite (Hno Hn). split; [reflexivity | exact He].
  - intros e He Hl Hnz Hdue.
    assert (Hg : guard).
    { exists e, expected. repeat split; try assumption.
      - rewrite Z.sub_diag. simpl. unfold OTP_EXPIRE_TOLERANCE_MS. lia.
      - unfold OTP_EXPIRE_TOLERANCE_MS. lia. }
    rewrite (Hyes Hg). simpl. apply lookup_delete_eq.
Qed.

Lemma C8_witness :
  OTP (snd (fire (GuardedExpiry "a@b.com" 1000000 OTP_EXPIRE_MS) 22600000 w2)) !! "a@b.com"
    = Some {| code := "123456"; lastSendTime := Some 1061000; recentSendCount := 2 |} /\
  OTP (snd (fire (GuardedExpiry "a@b.com" 1000000 OTP_EXPIRE_MS) 22600000 w1)) !! "a@b.com"
    = None.
Proof.
  split.
  - apply (proj1 (proj2 (proj2 (C8_expiry_guard "a@b.com" 1000000 22600000 w2)))
             {| code := "123456"; lastSendTime := Some 1061000; recentSendCount := 2 |}
             1061000).
    + vm_compute. reflexivity.
    + reflexivity.
    + vm_compute. reflexivity.
  - apply (proj2 (proj2 (proj2 (C8_expiry_guard "a@b.com" 1000000 22600000 w1)))
             {| code := "123456"; lastSendTime := Some 1000000; recentSendCount := 1 |}).
    + vm_compute. reflexivity.
    + reflexivity.
    + discriminate.
    + vm_compute. discriminate.
Defined.

(** ** Disposable providers and malformed addresses *)

Lemma backoff_denial_prefix entry now r :
  backoff_denial entry now = Some r ->
  String.prefix "Veuillez attendre " (msg r) = true.
Proof.
  unfold backoff_denial. intros H.
  repeat match type of H with
         | match ?x with _ => _ end = _ => destruct x; try discriminate
         | (if ?b then _ else _) = _ => destruct b; try discriminate
         end;
    injection H as <-; cbn [msg]; apply prefix_append.
Qed.






(** C10. For an address without [@] the exception raised by the missing
    second segment is caught: [sendOTP] answers the generic failure message
    with [valid = false]; the store, the timers and the outbox are unchanged,
    and the error is logged. *)
Theorem C10_missing_at_sign email now rnd d now' w :
  "@"%char ∉ list_ascii_of_string email ->
  exists w',
    sendOTP email now rnd d now' w
      = (Normal {| msg := msg_failure; valid := false |}, w') /\
    OTP w' = OTP w /\ timers w' = timers w /\ outbox w' = outbox w /\
    disposableMails w' = disposableMails w /\
    exists err, logged w' = (logged w ++ [ {| log_error := "SendOTP error";
                                              log_details := TypeError err |} ])%list.
Proof.
  intros Hno. eexists. split.
  - apply sendOTP_no_segment. rewrite split_no_sep by exact Hno. reflexivity.
  - simpl. repeat split. eexists. reflexivity.
Qed.

Lemma C10_witness :
  exists w',
    sendOTP "not-an-address" 1030000 sample_rnd Delivered 1030500 w1
      = (Normal {| msg := msg_failure; valid := false |}, w') /\
    OTP w' = OTP w1.
Proof.
  destruct (C10_missing_at_sign "not-an-address" 1030000 sample_rnd Delivered 1030500 w1)
    as (w' & Hrun & Hotp & _).
  - apply (bool_decide_unpack _). vm_compute. exact I.
  - exists w'. split; assumption.
Defined.

(** ** The scenario of the specification

    A send is committed (count 1); a request 30 seconds later is denied with
    30 seconds shown; a request 61 seconds after the commit is accepted
    (count 2); the request right after that commit is denied with 120
    seconds shown. *)
Example scenario_base_interval :
  OTP w1 !! "a@b.com"
    = Some {| code := "123456"; lastSendTime := Some 1000000; recentSendCount := 1 |} /\
  fst (sendOTP "a@b.com" 1030000 sample_rnd Delivered 1030500 w1)
    = Normal {| msg := "Veuillez attendre 30 secondes avant de demander à nouveau un code";
                valid := false |} /\
  (let '(r, w) := sendOTP "a@b.com" 1061000 sample_rnd Delivered 1061500 w1 in
   r = Normal {| msg := msg_sent; valid := true |} /\
   OTP w !! "a@b.com"
     = Some {| code := "123456"; lastSendTime := Some 1061500; recentSendCount := 2 |} /\
   fst (sendOTP "a@b.com" 1061500 sample_rnd Delivered 1062000 w)
     = Normal {| msg := "Veuillez attendre 120 secondes avant de demander à nouveau un code";
                 valid := false |}).
Proof. vm_compute. repeat split. Qed.

(** ** The earlier revision

    What [src/backend/src/mail.ts] does differently from the revision above.
    The scenarios of the specification (30 seconds shown after a request 30
    seconds after a send; the count carried from one send to the next) are
    those of the later revision. *)

Lemma legacy_generateOTP_resets email rnd w :
  exists w',
    Legacy.generateOTP email rnd w = (Normal tt, w') /\
    OTP w' !! email
      = Some {| code := random_code rnd; lastSendTime := None; recentSendCount := 0 |} /\
    timers w' = (timers w ++ [PlainExpiry email OTP_EXPIRE_MS])%list.
Proof.
  eexists. split; [reflexivity|]. simpl. split; [apply lookup_insert_eq | reflexivity].
Qed.

Lemma legacy_plain_expiry_deletes email delay now w :
  OTP (snd (fire (PlainExpiry email delay) now w)) !! email = None.
Proof. simpl. apply lookup_delete_eq. Qed.

(** With a count that is not negative, the earlier rate limiter denies
    exactly within the base interval, whatever the count. *)
Lemma legacy_backoff_gate email w e last now :
  OTP w !! email = Some e -> lastSendTime e = Some last -> last <> 0 ->
  0 <= recentSendCount e ->
  (now - last < OTP_RATE_LIMIT_MS ->
     exists r, Legacy.backoff_gate email now w = (Normal (Some r), w)) /\
  (OTP_RATE_LIMIT_MS <= now - last ->
     fst (Legacy.backoff_gate email now w) = Normal None).
Proof.
  intros He Hl Hnz Hc. unfold Legacy.backoff_gate, update_entry, entry_of, bind, gets, ret.
  rewrite He, Hl. simpl. destruct (Z.eqb_spec last 0); [contradiction|]. simpl.
  assert (Hpow : 1 <= 2 ^ recentSendCount e).
  { pose proof (Z.pow_pos_nonneg 2 (recentSendCount e)). lia. }
  split; intros Hcmp.
  - destruct (Z.ltb_spec (now - last) OTP_RATE_LIMIT_MS); [|lia].
    destruct (Z.ltb_spec (now - last) (OTP_RATE_LIMIT_MS * 2 ^ recentSendCount e)).
    + eexists. reflexivity.
    + unfold OTP_RATE_LIMIT_MS in *. nia.
  - destruct (Z.ltb_spec (now - last) OTP_RATE_LIMIT_MS); [lia|].
    destruct (Z.ltb_spec (now - last) OTP_RATE_LIMIT_MS); [lia|].
    rewrite He. reflexivity.
Qed.

Example legacy_sample_run :
  let w := snd (Legacy.sendOTP "a@b.com" 999000 sample_rnd Delivered 1000000 w0) in
  OTP w !! "a@b.com"
    = Some {| code := "123456"; lastSendTime := Some 1000000; recentSendCount := 1 |} /\
  fst (Legacy.sendOTP "a@b.com" 1030000 sample_rnd Delivered 1030500 w)
    = Normal {| msg := "Veuillez attendre 90 secondes avant de renvoyer un code";
                valid := false |} /\
  OTP (snd (Legacy.sendOTP "a@b.com" 1060000 sample_rnd Delivered 1061000 w)) !! "a@b.com"
    = Some {| code := "123456"; lastSendTime := Some 1061000; recentSendCount := 1 |}.
Proof. vm_compute. repeat split. Qed.

(** * Further properties of the later revision *)

(** ** The generated code *)

Lemma digit_at_digit k :
  (k < 10)%nat -> exists c, digit_at k = String c EmptyString /\ is_decimal_digit c = true.
Proof.
  intros Hk.
  do 10 (destruct k as [|k]; [eexists; split; reflexivity|]). lia.
Qed.

Lemma digit_at_nonempty k : digit_at k <> "".
Proof. unfold digit_at. destruct (String.get k digits); discriminate. Qed.

Lemma append_nonempty_r s t : t <> "" -> s ++ t <> "".
Proof. destruct s; simpl; [tauto | discriminate]. Qed.

Lemma random_code_nonempty rnd : random_code rnd <> "".
Proof. unfold random_code. simpl. apply append_nonempty_r, digit_at_nonempty. Qed.

(** X1. With draws in 0..9, as [Math.floor(Math.random() * 10)] gives them,
    the code is six characters long and each is a decimal digit. *)
Theorem random_code_six_digits rnd :
  (forall i, (i < 6)%nat -> (rnd i < 10)%nat) ->
  String.length (random_code rnd) = 6%nat /\
  Forall (fun c => is_decimal_digit c = true) (list_ascii_of_string (random_code rnd)).
Proof.
  intros Hr. unfold random_code. simpl.
  destruct (digit_at_digit (rnd 0%nat) (Hr 0%nat ltac:(lia))) as (c0 & -> & H0).
  destruct (digit_at_digit (rnd 1%nat) (Hr 1%nat ltac:(lia))) as (c1 & -> & H1).
  destruct (digit_at_digit (rnd 2%nat) (Hr 2%nat ltac:(lia))) as (c2 & -> & H2).
  destruct (digit_at_digit (rnd 3%nat) (Hr 3%nat ltac:(lia))) as (c3 & -> & H3).
  destruct (digit_at_digit (rnd 4%nat) (Hr 4%nat ltac:(lia))) as (c4 & -> & H4).
  destruct (digit_at_digit (rnd 5%nat) (Hr 5%nat ltac:(lia))) as (c5 & -> & H5).
  simpl. split; [reflexivity|]. repeat constructor; assumption.
Qed.

Lemma random_code_six_digits_witness :
  String.length (random_code sample_rnd) = 6%nat /\
  Forall (fun c => is_decimal_digit c = true) (list_ascii_of_string (random_code sample_rnd)).
Proof.
  apply random_code_six_digits. intros i Hi. unfold sample_rnd. lia.
Defined.

(** ** What a call to [sendOTP] can do *)

(** X2. [sendOTP] never throws: it always answers, and it answers
    [valid = true] only when the delivery succeeded.  The disposable-mail
    list is never modified. *)
Theorem sendOTP_always_answers email now rnd d now' w :
  exists r w',
    sendOTP email now rnd d now' w = (Normal r, w') /\
    (valid r = true -> d = Delivered) /\
    disposableMails w' = disposableMails w.
Proof.
  destruct (split "@"%char email !! 1%nat) as [seg|] eqn:Hs.
  2: { rewrite sendOTP_no_segment by exact Hs. eexists _, _.
       split; [reflexivity|]. simpl. split; [discriminate | reflexivity]. }
  destruct (includes (disposableMails w) (toLowerCase seg)) eqn:Hd.
  { rewrite (sendOTP_disposable _ _ _ _ _ _ _ Hs Hd). eexists _, _.
    split; [reflexivity|]. simpl. split; [discriminate | reflexivity]. }
  destruct (backoff_denial (OTP w !! email) now) as [r|] eqn:Hb.
  { rewrite (sendOTP_denied _ _ _ _ _ _ _ _ Hs Hd Hb). eexists _, _.
    split; [reflexivity|]. rewrite (backoff_denial_invalid _ _ _ Hb).
    split; [discriminate | reflexivity]. }
  destruct d.
  - rewrite (sendOTP_delivered _ _ _ _ _ _ Hs Hd Hb). eexists _, _.
    split; [reflexivity|]. simpl. split; reflexivity.
  - rewrite (sendOTP_rejected _ _ _ _ _ _ Hs Hd Hb). eexists _, _.
    split; [reflexivity|]. simpl. split; [discriminate | reflexivity].
Qed.

(** X3. The footprint of a call: an expiry timer is registered exactly when
    the answer is [valid = true]; at most one mail is handed over, and it is
    the OTP mail of the address of the call; no record of another address
    changes. *)
Theorem sendOTP_footprint email now rnd d now' w :
  exists r w',
    sendOTP email now rnd d now' w = (Normal r, w') /\
    timers w' = (timers w ++ (if valid r then [GuardedExpiry email now' OTP_EXPIRE_MS] else []))%list /\
    (outbox w' = outbox w \/
     outbox w' = (outbox w ++ [otp_mail email (random_code rnd)])%list) /\
    (valid r = true -> outbox w' = (outbox w ++ [otp_mail email (random_code rnd)])%list) /\
    (forall other, other <> email -> OTP w' !! other = OTP w !! other).
Proof.
  destruct (split "@"%char email !! 1%nat) as [seg|] eqn:Hs.
  2: { rewrite sendOTP_no_segment by exact Hs. eexists _, _.
       split; [reflexivity|]. simpl. rewrite app_nil_r.
       repeat split; auto; discriminate. }
  destruct (includes (disposableMails w) (toLowerCase seg)) eqn:Hd.
  { rewrite (sendOTP_disposable _ _ _ _ _ _ _ Hs Hd). eexists _, _.
    split; [reflexivity|]. simpl. rewrite app_nil_r.
    repeat split; auto; discriminate. }
  destruct (backoff_denial (OTP w !! email) now) as [r|] eqn:Hb.
  { rewrite (sendOTP_denied _ _ _ _ _ _ _ _ Hs Hd Hb). eexists _, _.
    split; [reflexivity|]. rewrite (backoff_denial_invalid _ _ _ Hb). rewrite app_nil_r.
    repeat split; auto; discriminate. }
  destruct d.
  - rewrite (sendOTP_delivered _ _ _ _ _ _ Hs Hd Hb). eexists _, _.
    split; [reflexivity|]. simpl. repeat split; auto.
    intros other Hne. apply lookup_insert_ne. congruence.
  - rewrite (sendOTP_rejected _ _ _ _ _ _ Hs Hd Hb). eexists _, _.
    split; [reflexivity|]. simpl. rewrite app_nil_r. repeat split; auto; try discriminate.
    intros other Hne. apply lookup_insert_ne. congruence.
Qed.

(** ** Acceptance *)

Lemma backoff_without_lastSendTime entry now :
  entry ≫= lastSendTime = None -> backoff_denial entry now = None.
Proof.
  destruct entry as [e|]; simpl; intros H; [|reflexivity].
  apply backoff_no_time. rewrite H. reflexivity.
Qed.

Lemma backoff_denial_none_inv e last now :
  lastSendTime e = Some last -> last <> 0 ->
  backoff_denial (Some e) now = None ->
  OTP_RATE_LIMIT_MS * 2 ^ Z.max 0 (recentSendCount e - 1) <= now - last.
Proof.
  intros Hl Hnz Hb.
  destruct (Z.lt_ge_cases (now - last)
              (OTP_RATE_LIMIT_MS * 2 ^ Z.max 0 (recentSendCount e - 1))) as [Hlt|Hge];
    [|exact Hge].
  rewrite (backoff_denies e last now Hl Hnz Hlt) in Hb. discriminate.
Qed.

(** With a provider that is not disposable, a delivered request is accepted
    exactly when the rate-limit block lets it through. *)
Lemma sendOTP_accepted_iff email seg w now rnd now' :
  split "@"%char email !! 1%nat = Some seg ->
  includes (disposableMails w) (toLowerCase seg) = false ->
  fst (sendOTP email now rnd Delivered now' w) = Normal {| msg := msg_sent; valid := true |}
  <-> backoff_denial (OTP w !! email) now = None.
Proof.
  intros Hs Hd. split.
  - destruct (backoff_denial (OTP w !! email) now) as [r|] eqn:Hb; [|reflexivity].
    rewrite (sendOTP_denied _ _ _ _ _ _ _ _ Hs Hd Hb). simpl. intros [= ->].
    pose proof (backoff_denial_invalid _ _ _ Hb) as Hv. discriminate Hv.
  - intros Hb. rewrite (sendOTP_delivered _ _ _ _ _ _ Hs Hd Hb). reflexivity.
Qed.

(** X4. An address with no record, or with a record that has no
    [lastSendTime] (left by a failed delivery), is never rate-limited: with a
    provider that is not disposable the request is accepted whatever the
    clock, and the commit sets [lastSendTime] to the clock reading after the
    delivery and raises the count by one (to 1 for a new address). *)
Theorem sendOTP_accepts_without_lastSendTime email seg w now rnd now' :
  split "@"%char email !! 1%nat = Some seg ->
  includes (disposableMails w) (toLowerCase seg) = false ->
  OTP w !! email ≫= lastSendTime = None ->
  exists w',
    sendOTP email now rnd Delivered now' w
      = (Normal {| msg := msg_sent; valid := true |}, w') /\
    OTP w' !! email
      = Some {| code := random_code rnd; lastSendTime := Some now';
                recentSendCount := default 0 (recentSendCount <$> OTP w !! email) + 1 |} /\
    (OTP w !! email = None ->
     OTP w' !! email
       = Some {| code := random_code rnd; lastSendTime := Some now'; recentSendCount := 1 |}).
Proof.
  intros Hs Hd Hnone.
  pose proof (backoff_without_lastSendTime _ now Hnone) as Hb.
  eexists. split; [apply (sendOTP_delivered _ _ _ _ _ _ Hs Hd Hb)|].
  simpl. split.
  - apply lookup_insert_eq.
  - intros Habs. rewrite lookup_insert_eq, Habs. reflexivity.
Qed.

Lemma sendOTP_accepts_without_lastSendTime_witness :
  exists w',
    sendOTP "new@b.com" 5 sample_rnd Delivered 6 w1
      = (Normal {| msg := msg_sent; valid := true |}, w') /\
    OTP w' !! "new@b.com"
      = Some {| code := "123456"; lastSendTime := Some 6; recentSendCount := 1 |}.
Proof.
  destruct (sendOTP_accepts_without_lastSendTime "new@b.com" "b.com" w1 5 sample_rnd 6)
    as (w' & Hrun & _ & Hnew).
  - reflexivity.
  - vm_compute. reflexivity.
  - vm_compute. reflexivity.
  - exists w'. split; [exact Hrun|]. apply Hnew. vm_compute. reflexivity.
Defined.

(** X5. The code that was mailed is the code that validates: after an
    accepted call the last mail handed over is addressed to the address and
    carries the generated code, and [validateOTP] with that code answers
    [true] and removes the record. *)
Theorem mailed_code_validates email now rnd now' w r w' :
  sendOTP email now rnd Delivered now' w = (Normal r, w') -> valid r = true ->
  outbox w' = (outbox w ++ [ {| mail_text := "Votre code, valide 6 heures: " ++ random_code rnd;
                                mail_to := email |} ])%list /\
  validateOTP email (random_code rnd) w' = (Normal true, with_OTP (delete email) w') /\
  OTP (with_OTP (delete email) w') !! email = None.
Proof.
  intros Hrun Hvalid.
  destruct (sendOTP_committed _ _ _ _ _ _ _ Hrun Hvalid) as (seg & Hs & Hd & Hb & Hotp & _).
  pose proof Hrun as Hrun'.
  rewrite (sendOTP_delivered _ _ _ _ _ _ Hs Hd Hb) in Hrun'. injection Hrun' as _ Hw.
  split; [rewrite <- Hw; reflexivity|]. split.
  - eapply validateOTP_accepts.
    + rewrite Hotp. apply lookup_insert_eq.
    + apply random_code_nonempty.
    + reflexivity.
  - simpl. apply lookup_delete_eq.
Qed.

Lemma mailed_code_validates_witness :
  outbox w1 = [ {| mail_text := "Votre code, valide 6 heures: 123456"; mail_to := "a@b.com" |} ] /\
  validateOTP "a@b.com" "123456" w1 = (Normal true, with_OTP (delete "a@b.com") w1).
Proof.
  destruct (mailed_code_validates "a@b.com" 999000 sample_rnd 1000000 w0
              {| msg := msg_sent; valid := true |} w1) as (Hout & Hval & _).
  - vm_compute. reflexivity.
  - reflexivity.
  - split; [exact Hout | exact Hval].
Defined.

(** X6. Only the latest code validates: once a call has reached the
    generation (whether the delivery then succeeds or fails), [validateOTP]
    answers [true] for the address exactly for the newly generated code; any
    earlier code is refused. *)
Theorem only_latest_code_validates email seg w now rnd d now' otp :
  split "@"%char email !! 1%nat = Some seg ->
  includes (disposableMails w) (toLowerCase seg) = false ->
  backoff_denial (OTP w !! email) now = None ->
  fst (validateOTP email otp (snd (sendOTP email now rnd d now' w))) = Normal true
  <-> otp = random_code rnd.
Proof.
  intros Hs Hd Hb.
  set (w' := snd (sendOTP email now rnd d now' w)).
  assert (Hrec : exists e, OTP w' !! email = Some e /\ code e = random_code rnd).
  { subst w'. destruct d.
    - rewrite (sendOTP_delivered _ _ _ _ _ _ Hs Hd Hb). simpl.
      eexists. split; [apply lookup_insert_eq | reflexivity].
    - rewrite (sendOTP_rejected _ _ _ _ _ _ Hs Hd Hb). simpl.
      eexists. split; [apply lookup_insert_eq | reflexivity]. }
  destruct Hrec as (e & He & Hc).
  destruct (validateOTP_cases email otp w') as [(e' & He' & _ & Hc' & Heq)|[Hno Heq]];
    rewrite Heq; simpl.
  - rewrite He in He'. injection He' as <-. split; [intros _; congruence | reflexivity].
  - split; [discriminate|]. intros ->.
    destruct (Hno e He) as [Hempty|Hdiff].
    + exfalso. exact (random_code_nonempty rnd Hempty).
    + contradiction.
Qed.

Lemma only_latest_code_validates_witness :
  fst (validateOTP "a@b.com" "123456"
         (snd (sendOTP "a@b.com" 1060000 (fun _ => 7%nat) Rejected 1061000 w1)))
  <> Normal true.
Proof.
  intros H.
  apply (proj1 (only_latest_code_validates "a@b.com" "b.com" w1 1060000 (fun _ => 7%nat)
                  Rejected 1061000 "123456" ltac:(reflexivity)
                  ltac:(vm_compute; reflexivity) ltac:(vm_compute; reflexivity))) in H.
  vm_compute in H. discriminate H.
Defined.

(** ** The wait that is enforced and the wait that is shown *)

Lemma backoff_monotone entry now1 now2 :
  now1 <= now2 -> backoff_denial entry now1 = None -> backoff_denial entry now2 = None.
Proof.
  intros Hle H1. destruct entry as [e|]; [|reflexivity].
  destruct (truthy (lastSendTime e)) eqn:Ht; [|apply backoff_no_time; exact Ht].
  destruct (lastSendTime e) as [last|] eqn:Hl; [|discriminate Ht].
  simpl in Ht. destruct (Z.eqb_spec last 0) as [|Hnz]; [discriminate Ht|].
  pose proof (backoff_denial_none_inv e last now1 Hl Hnz H1).
  apply (backoff_allows e last now2 Hl). lia.
Qed.

(** X7. Acceptance is monotone in time: if a request at one clock reading
    is accepted, a request at any later reading, the store being the same,
    is accepted as well. *)
Theorem sendOTP_accepted_later email w now1 now2 rnd1 rnd2 c1 c2 r w1' :
  sendOTP email now1 rnd1 Delivered c1 w = (Normal r, w1') -> valid r = true ->
  now1 <= now2 ->
  fst (sendOTP email now2 rnd2 Delivered c2 w) = Normal {| msg := msg_sent; valid := true |}.
Proof.
  intros Hrun Hvalid Hle.
  destruct (sendOTP_committed _ _ _ _ _ _ _ Hrun Hvalid) as (seg & Hs & Hd & Hb & _).
  apply (sendOTP_accepted_iff _ _ _ _ _ _ Hs Hd).
  exact (backoff_monotone _ _ _ Hle Hb).
Qed.

Lemma sendOTP_accepted_later_witness :
  fst (sendOTP "a@b.com" 5000000 (fun _ => 7%nat) Delivered 5000100 w1)
  = Normal {| msg := msg_sent; valid := true |}.
Proof.
  apply (sendOTP_accepted_later "a@b.com" w1 1060000 5000000 sample_rnd (fun _ => 7%nat)
           1061000 5000100 {| msg := msg_sent; valid := true |}
           (snd (sendOTP "a@b.com" 1060000 sample_rnd Delivered 1061000 w1))).
  - vm_compute. reflexivity.
  - reflexivity.
  - lia.
Defined.

(** X8. Waiting the time shown is enough when the clamp does not apply: if
    a request is denied and the seconds left, [ceil((limit - elapsed) /
    1000)], do not exceed the 21600 of the validity window, then the message
    is the one for that number of seconds, a request made that many seconds
    later is accepted, and so is one made after that number of seconds
    rounded up to minutes (what the message shows above 120 seconds). *)
Theorem shown_wait_suffices email seg w e last now rnd now' :
  split "@"%char email !! 1%nat = Some seg ->
  includes (disposableMails w) (toLowerCase seg) = false ->
  OTP w !! email = Some e -> lastSendTime e = Some last -> last <> 0 ->
  let limit := OTP_RATE_LIMIT_MS * 2 ^ Z.max 0 (recentSendCount e - 1) in
  let secondsLeft := ceil_div (limit - (now - last)) 1000 in
  now - last < limit -> secondsLeft <= 21600 ->
  sendOTP email now rnd Delivered now' w
    = (Normal {| msg := spec_wait_message secondsLeft; valid := false |}, w) /\
  fst (sendOTP email (now + 1000 * secondsLeft) rnd Delivered now' w)
    = Normal {| msg := msg_sent; valid := true |} /\
  fst (sendOTP email (now + 60000 * ceil_div secondsLeft 60) rnd Delivered now' w)
    = Normal {| msg := msg_sent; valid := true |}.
Proof.
  intros Hs Hd He Hl Hnz limit secondsLeft Hlt Hclamp.
  pose proof (ceil_div_spec (limit - (now - last)) 1000 ltac:(lia)) as Hsec.
  pose proof (ceil_div_spec secondsLeft 60 ltac:(lia)) as Hmin.
  fold secondsLeft in Hsec.
  split.
  - pose proof (backoff_denies e last now Hl Hnz Hlt) as Hb. fold limit secondsLeft in Hb.
    rewrite <- He in Hb. rewrite (sendOTP_denied _ _ _ _ _ _ _ _ Hs Hd Hb).
    change (OTP_EXPIRE_MS / 1000) with 21600. rewrite Z.min_l by lia. reflexivity.
  - split; apply (sendOTP_accepted_iff _ _ _ _ _ _ Hs Hd); rewrite He;
      apply (backoff_allows e last _ Hl); fold limit; lia.
Qed.

Lemma shown_wait_suffices_witness :
  sendOTP "a@b.com" 1030000 sample_rnd Delivered 1061000 w1
    = (Normal {| msg := "Veuillez attendre 30 secondes avant de demander à nouveau un code";
                 valid := false |}, w1) /\
  fst (sendOTP "a@b.com" (1030000 + 1000 * 30) sample_rnd Delivered 1061000 w1)
    = Normal {| msg := msg_sent; valid := true |}.
Proof.
  destruct (shown_wait_suffices "a@b.com" "b.com" w1
              {| code := "123456"; lastSendTime := Some 1000000; recentSendCount := 1 |}
              1000000 1030000 sample_rnd 1061000) as (Hmsg & Hsec & _).
  - reflexivity.
  - vm_compute. reflexivity.
  - vm_compute. reflexivity.
  - reflexivity.
  - discriminate.
  - vm_compute. reflexivity.
  - vm_compute. discriminate.
  - split; [exact Hmsg | exact Hsec].
Defined.

(** X9. When the clamp applies the time shown is not enough: if more than
    21600 seconds are left, the message shows 360 minutes, and a request 360
    minutes later, the record being still there, is denied again. *)
Theorem clamped_wait_does_not_suffice email seg w e last now rnd d now' :
  split "@"%char email !! 1%nat = Some seg ->
  includes (disposableMails w) (toLowerCase seg) = false ->
  OTP w !! email = Some e -> lastSendTime e = Some last -> last <> 0 ->
  let limit := OTP_RATE_LIMIT_MS * 2 ^ Z.max 0 (recentSendCount e - 1) in
  21600 < ceil_div (limit - (now - last)) 1000 ->
  sendOTP email now rnd d now' w
    = (Normal {| msg := "Veuillez attendre 360 minutes avant de demander à nouveau un code";
                 valid := false |}, w) /\
  exists r, sendOTP email (now + 360 * 60000) rnd d now' w = (Normal r, w) /\
            valid r = false /\ String.prefix "Veuillez attendre " (msg r) = true.
Proof.
  intros Hs Hd He Hl Hnz limit Hclamp.
  pose proof (ceil_div_spec (limit - (now - last)) 1000 ltac:(lia)) as Hsec.
  assert (Hlt : now - last < limit) by lia.
  split.
  - pose proof (backoff_denies e last now Hl Hnz Hlt) as Hb. fold limit in Hb.
    rewrite <- He in Hb. rewrite (sendOTP_denied _ _ _ _ _ _ _ _ Hs Hd Hb).
    change (OTP_EXPIRE_MS / 1000) with 21600. rewrite Z.min_r by lia. reflexivity.
  - assert (Hlt' : now + 360 * 60000 - last < limit) by lia.
    pose proof (backoff_denies e last _ Hl Hnz Hlt') as Hb.
    rewrite <- He in Hb. rewrite (sendOTP_denied _ _ _ _ _ _ _ _ Hs Hd Hb).
    eexists. split; [reflexivity|]. split; [reflexivity|]. apply spec_wait_message_prefix.
Qed.

Lemma clamped_wait_does_not_suffice_witness :
  sendOTP "a@b.com" 31670000 sample_rnd Delivered 31670500 w10
    = (Normal {| msg := "Veuillez attendre 360 minutes avant de demander à nouveau un code";
                 valid := false |}, w10) /\
  exists r, sendOTP "a@b.com" (31670000 + 360 * 60000) sample_rnd Delivered 31670500 w10
            = (Normal r, w10) /\
            valid r = false /\ String.prefix "Veuillez attendre " (msg r) = true.
Proof.
  apply (clamped_wait_does_not_suffice "a@b.com" "b.com" w10
           {| code := "123456"; lastSendTime := Some 31669000; recentSendCount := 10 |}
           31669000).
  - reflexivity.
  - vm_compute. reflexivity.
  - exact w10_record.
  - reflexivity.
  - discriminate.
  - vm_compute. reflexivity.
Defined.

(** X10. The number shown in a denial is bounded: a wait in seconds shows
    between 1 and 120, in the singular only for 1; a wait in minutes shows
    between 3 and 360 and is always in the plural.  Every denial has
    [valid = false]. *)
Theorem denial_message_range entry now r :
  backoff_denial entry now = Some r ->
  valid r = false /\
  exists n,
    (1 <= n <= 120 /\
     msg r = "Veuillez attendre " ++ pretty n ++ " seconde" ++ (if n =? 1 then "" else "s")
             ++ " avant de demander à nouveau un code") \/
    (3 <= n <= 360 /\
     msg r = "Veuillez attendre " ++ pretty n
             ++ " minutes avant de demander à nouveau un code").
Proof.
  intros Hb. split; [exact (backoff_denial_invalid _ _ _ Hb)|].
  destruct entry as [e|]; [|discriminate Hb].
  destruct (truthy (lastSendTime e)) eqn:Ht.
  2: { rewrite (backoff_no_time e now Ht) in Hb. discriminate Hb. }
  destruct (lastSendTime e) as [last|] eqn:Hl; [|discriminate Ht].
  simpl in Ht. destruct (Z.eqb_spec last 0) as [|Hnz]; [discriminate Ht|].
  set (limit := OTP_RATE_LIMIT_MS * 2 ^ Z.max 0 (recentSendCount e - 1)).
  destruct (Z.lt_ge_cases (now - last) limit) as [Hlt|Hge].
  2: { rewrite (backoff_allows e last now Hl Hge) in Hb. discriminate Hb. }
  rewrite (backoff_denies e last now Hl Hnz Hlt) in Hb. injection Hb as <-.
  fold limit. change (OTP_EXPIRE_MS / 1000) with 21600.
  set (secs := Z.min (ceil_div (limit - (now - last)) 1000) 21600).
  assert (Hsecs : 1 <= secs <= 21600).
  { pose proof (ceil_div_pos (limit - (now - last)) 1000). subst secs. lia. }
  cbn [msg]. unfold spec_wait_message.
  destruct (Z.ltb_spec 120 secs) as [Hm|Hs].
  - exists (ceil_div secs 60). right.
    pose proof (ceil_div_spec secs 60 ltac:(lia)) as Hc.
    split; [lia|].
    destruct (Z.eqb_spec (ceil_div secs 60) 1); [lia|]. reflexivity.
  - exists secs. left. split; [lia|]. reflexivity.
Qed.

Lemma denial_message_range_witness :
  exists n,
    (1 <= n <= 120 /\
     "Veuillez attendre 30 secondes avant de demander à nouveau un code"
     = "Veuillez attendre " ++ pretty n ++ " seconde" ++ (if n =? 1 then "" else "s")
       ++ " avant de demander à nouveau un code") \/
    (3 <= n <= 360 /\
     "Veuillez attendre 30 secondes avant de demander à nouveau un code"
     = "Veuillez attendre " ++ pretty n
       ++ " minutes avant de demander à nouveau un code").
Proof.
  refine (proj2 (denial_message_range
                   (Some {| code := "123456"; lastSendTime := Some 1000000; recentSendCount := 1 |})
                   1030000
                   {| msg := "Veuillez attendre 30 secondes avant de demander à nouveau un code";
                      valid := false |} _)).
  vm_compute. reflexivity.
Defined.

(** ** An invariant of the store *)

Lemma store_consistent_delete email w :
  store_consistent w -> store_consistent (with_OTP (delete email) w).
Proof.
  intros Hinv email' e He. simpl in He.
  apply lookup_delete_Some in He as [_ He]. exact (Hinv email' e He).
Qed.

Lemma store_consistent_step a w : store_consistent w -> store_consistent (step a w).
Proof.
  intros Hinv. destruct a as [email now rnd d now'|email otp|t now]; simpl.
  - destruct (split "@"%char email !! 1%nat) as [seg|] eqn:Hs.
    2: { rewrite sendOTP_no_segment by exact Hs. exact Hinv. }
    destruct (includes (disposableMails w) (toLowerCase seg)) eqn:Hd.
    { rewrite (sendOTP_disposable _ _ _ _ _ _ _ Hs Hd). exact Hinv. }
    destruct (backoff_denial (OTP w !! email) now) as [r|] eqn:Hb.
    { rewrite (sendOTP_denied _ _ _ _ _ _ _ _ Hs Hd Hb). exact Hinv. }
    assert (Hprev : 0 <= default 0 (recentSendCount <$> OTP w !! email) /\
                    (OTP w !! email ≫= lastSendTime = None
                     <-> default 0 (recentSendCount <$> OTP w !! email) = 0) /\
                    (forall t, OTP w !! email ≫= lastSendTime = Some t ->
                               GuardedExpiry email t OTP_EXPIRE_MS ∈ timers w)).
    { destruct (OTP w !! email) as [e0|] eqn:He0; simpl.
      - destruct (Hinv email e0 He0) as [[Hc Hiff] Ht]. auto.
      - split; [lia|]. split; [tauto | discriminate]. }
    destruct Hprev as (Hc & Hiff & Ht).
    destruct d.
    + rewrite (sendOTP_delivered _ _ _ _ _ _ Hs Hd Hb). intros email' e He. simpl in He |- *.
      destruct (decide (email = email')) as [<-|Hne].
      * rewrite lookup_insert_eq in He. injection He as <-.
        unfold entry_consistent.
        cbn [recentSendCount lastSendTime incr_recentSendCount set_lastSendTime fresh_entry].
        split; [split; [lia | split; [discriminate | lia]]|].
        intros t [= <-]. apply elem_of_app. right. apply list_elem_of_singleton. reflexivity.
      * rewrite lookup_insert_ne in He by exact Hne.
        destruct (Hinv email' e He) as [Hcons Htm]. split; [exact Hcons|].
        intros t Hl. apply elem_of_app. left. exact (Htm t Hl).
    + rewrite (sendOTP_rejected _ _ _ _ _ _ Hs Hd Hb). intros email' e He. simpl in He |- *.
      destruct (decide (email = email')) as [<-|Hne].
      * rewrite lookup_insert_eq in He. injection He as <-.
        unfold entry_consistent. cbn [recentSendCount lastSendTime fresh_entry].
        split; [split; assumption | exact Ht].
      * rewrite lookup_insert_ne in He by exact Hne. exact (Hinv email' e He).
  - destruct (validateOTP_cases email otp w) as [(e & _ & _ & _ & ->)|[_ ->]]; simpl.
    + apply store_consistent_delete. exact Hinv.
    + exact Hinv.
  - destruct t as [email expected delay|email delay]; simpl.
    + rewrite expiry_callback_run. simpl.
      destruct (OTP w !! email ≫= lastSendTime) as [last|]; [|exact Hinv].
      match goal with |- context [if ?b then _ else _] => destruct b end.
      * apply store_consistent_delete. exact Hinv.
      * exact Hinv.
    + apply (store_consistent_delete email w Hinv).
Qed.

Lemma run_store_consistent file acts :
  store_consistent (run acts (initial_world file)).
Proof.
  assert (Hgen : forall w, store_consistent w -> store_consistent (run acts w)).
  { induction acts as [|a acts IH]; intros w Hinv; [exact Hinv|].
    simpl. apply IH. apply store_consistent_step. exact Hinv. }
  apply Hgen. intros email e He. simpl in He. rewrite lookup_empty in He. discriminate.
Qed.

(** X11. Whatever calls and timer firings have happened since the module was
    loaded, every record has a count that is not negative, has no
    [lastSendTime] exactly when its count is 0, and, when it has a
    [lastSendTime], the expiry timer of that very commit has been
    registered. *)
Theorem reachable_store_consistent file acts email e :
  OTP (run acts (initial_world file)) !! email = Some e ->
  0 <= recentSendCount e /\
  (lastSendTime e = None <-> recentSendCount e = 0) /\
  (forall t, lastSendTime e = Some t ->
     GuardedExpiry email t OTP_EXPIRE_MS ∈ timers (run acts (initial_world file))).
Proof.
  intros He. destruct (run_store_consistent file acts email e He) as [[Hc Hiff] Ht].
  split; [exact Hc|]. split; [exact Hiff | exact Ht].
Qed.

Lemma reachable_store_consistent_witness :
  GuardedExpiry "a@b.com" 31669000 OTP_EXPIRE_MS ∈ timers w10.
Proof.
  refine (proj2 (proj2 (reachable_store_consistent (Some "mailinator.com") ten_sends_run
                          "a@b.com"
                          {| code := "123456"; lastSendTime := Some 31669000;
                             recentSendCount := 10 |} _)) 31669000 _).
  - vm_compute. reflexivity.
  - reflexivity.
Defined.

(** ** Records that no timer removes *)

Lemma guarded_fire_keeps_unsent address e a w :
  is_guarded_fire a ->
  OTP w !! address = Some e -> lastSendTime e = None ->
  OTP (step a w) !! address = Some e.
Proof.
  intros Hg He Hl. destruct a as [| |t now]; try contradiction.
  destruct t as [email expected delay|]; [|contradiction]. simpl.
  rewrite expiry_callback_run. simpl.
  destruct (decide (email = address)) as [->|Hne].
  - rewrite He. simpl. rewrite Hl. exact He.
  - destruct (OTP w !! email ≫= lastSendTime) as [last|]; [|exact He].
    match goal with |- context [if ?b then _ else _] => destruct b end; [|exact He].
    simpl. rewrite lookup_delete_ne by exact Hne. exact He.
Qed.

(** X12. A record left by a failed first delivery is never removed by an
    expiry timer: it has no [lastSendTime], no timer was registered for it,
    and the callback of [scheduleOtpExpiry] returns at once on such a record.
    After any number of such timers have fired, the code that was never
    delivered still validates. *)
Theorem unsent_record_never_expires email seg w now rnd now' fires :
  split "@"%char email !! 1%nat = Some seg ->
  includes (disposableMails w) (toLowerCase seg) = false ->
  OTP w !! email = None ->
  Forall is_guarded_fire fires ->
  let wf := snd (sendOTP email now rnd Rejected now' w) in
  timers wf = timers w /\
  OTP (run fires wf) !! email
    = Some {| code := random_code rnd; lastSendTime := None; recentSendCount := 0 |} /\
  fst (validateOTP email (random_code rnd) (run fires wf)) = Normal true.
Proof.
  intros Hs Hd Habs Hfires wf.
  assert (H1 : timers wf = timers w /\
               OTP wf !! email
               = Some {| code := random_code rnd; lastSendTime := None; recentSendCount := 0 |}).
  { subst wf. rewrite (sendOTP_rejected _ _ _ _ _ _ Hs Hd).
    - simpl. split; [reflexivity|]. rewrite lookup_insert_eq, Habs. reflexivity.
    - rewrite Habs. reflexivity. }
  destruct H1 as [Ht H1]. split; [exact Ht|].
  assert (Hkeep : OTP (run fires wf) !! email
                  = Some {| code := random_code rnd; lastSendTime := None; recentSendCount := 0 |}).
  { clearbody wf. clear Ht. revert wf H1.
    induction Hfires as [|a fires Ha _ IH]; intros wf H1; [exact H1|].
    simpl. apply IH. apply (guarded_fire_keeps_unsent email _ a wf Ha H1). reflexivity. }
  split; [exact Hkeep|].
  erewrite validateOTP_accepts; [reflexivity | exact Hkeep | apply random_code_nonempty | reflexivity].
Qed.

Lemma unsent_record_never_expires_witness :
  OTP (run [ ActFire (GuardedExpiry "a@b.com" 1000000 OTP_EXPIRE_MS) 22600000;
             ActFire (GuardedExpiry "a@b.com" 0 OTP_EXPIRE_MS) 99999999999 ]
           (snd (sendOTP "a@b.com" 999000 sample_rnd Rejected 1000000 w0))) !! "a@b.com"
  = Some {| code := "123456"; lastSendTime := None; recentSendCount := 0 |}.
Proof.
  refine (proj1 (proj2 (unsent_record_never_expires "a@b.com" "b.com" w0 999000 sample_rnd
                          1000000 _ _ _ _ _))).
  - reflexivity.
  - vm_compute. reflexivity.
  - reflexivity.
  - repeat constructor.
Defined.

(** ** Validation and the rest of the state *)

(** X13. [validateOTP] never throws and touches nothing but the record of
    its address: the other records, the pending timers (the expiry timer of
    a validated code is not cancelled), the outbox and the log are as
    before, and a refused attempt changes nothing at all. *)
Theorem validateOTP_footprint email otp w :
  exists b w',
    validateOTP email otp w = (Normal b, w') /\
    (forall other, other <> email -> OTP w' !! other = OTP w !! other) /\
    timers w' = timers w /\ outbox w' = outbox w /\ logged w' = logged w /\
    disposableMails w' = disposableMails w /\
    (b = true -> OTP w' !! email = None) /\
    (b = false -> w' = w).
Proof.
  destruct (validateOTP_cases email otp w) as [(e & _ & _ & _ & ->)|[_ ->]];
    eexists _, _; (split; [reflexivity|]); simpl.
  - split; [intros other Hne; apply lookup_delete_ne; congruence|].
    repeat split; try discriminate. intros _. apply lookup_delete_eq.
  - repeat split; discriminate.
Qed.

(** ** The provider and the disposable-mail list *)

Lemma lower_ascii_idempotent c : lower_ascii (lower_ascii c) = lower_ascii c.
Proof. destruct c as [[] [] [] [] [] [] [] []]; reflexivity. Qed.

Lemma toLowerCase_idempotent s : toLowerCase (toLowerCase s) = toLowerCase s.
Proof.
  induction s as [|c s IH]; simpl; [reflexivity|].
  rewrite lower_ascii_idempotent, IH. reflexivity.
Qed.

Lemma split_cons sep l r :
  sep ∉ list_ascii_of_string l ->
  split sep (l ++ String sep r) = l :: split sep r.
Proof. intros Hl. unfold split at 1. rewrite split_segments_app by exact Hl. reflexivity. Qed.

Lemma sendOTP_not_disposable email seg w now rnd d now' r :
  split "@"%char email !! 1%nat = Some seg ->
  includes (disposableMails w) (toLowerCase seg) = false ->
  fst (sendOTP email now rnd d now' w) = Normal r -> msg r <> msg_disposable.
Proof.
  intros Hs Hd.
  destruct (backoff_denial (OTP w !! email) now) as [r0|] eqn:Hb.
  { rewrite (sendOTP_denied _ _ _ _ _ _ _ _ Hs Hd Hb). simpl. intros [= <-] Heq.
    pose proof (backoff_denial_prefix _ _ _ Hb) as Hp. rewrite Heq in Hp. discriminate Hp. }
  destruct d.
  - rewrite (sendOTP_delivered _ _ _ _ _ _ Hs Hd Hb). simpl. intros [= <-]. discriminate.
  - rewrite (sendOTP_rejected _ _ _ _ _ _ Hs Hd Hb). simpl. intros [= <-]. discriminate.
Qed.

(** X14. For an address of ASCII characters, the disposable answer is given
    exactly when the address has a second [@]-separated segment whose
    lower-case form is an entry of the list.  The entries are compared as
    they are: an entry that is not in lower case is never the reason of a
    rejection. *)
Theorem disposable_answer_iff email now rnd d now' w :
  is_ascii email = true ->
  (exists r, fst (sendOTP email now rnd d now' w) = Normal r /\ msg r = msg_disposable)
  <-> (exists seg entry,
         split "@"%char email !! 1%nat = Some seg /\ entry ∈ disposableMails w /\
         entry = toLowerCase seg /\ toLowerCase entry = entry).
Proof.
  intros _. split.
  - intros (r & Hrun & Hmsg).
    destruct (split "@"%char email !! 1%nat) as [seg|] eqn:Hs.
    2: { rewrite sendOTP_no_segment in Hrun by exact Hs. simpl in Hrun.
         injection Hrun as <-. discriminate Hmsg. }
    destruct (includes (disposableMails w) (toLowerCase seg)) eqn:Hd.
    + exists seg, (toLowerCase seg). split; [reflexivity|].
      split; [apply includes_true; exact Hd|]. split; [reflexivity|].
      apply toLowerCase_idempotent.
    + exfalso. apply (sendOTP_not_disposable _ _ _ _ _ _ _ _ Hs Hd Hrun). exact Hmsg.
  - intros (seg & entry & Hs & Hin & -> & _).
    apply includes_true in Hin.
    rewrite (sendOTP_disposable _ _ _ _ _ _ _ Hs Hin). eexists. split; reflexivity.
Qed.

Lemma disposable_answer_iff_witness :
  exists r, fst (sendOTP "x@Mailinator.COM" 1 sample_rnd Delivered 2 w0) = Normal r /\
            msg r = msg_disposable.
Proof.
  apply (proj2 (disposable_answer_iff "x@Mailinator.COM" 1 sample_rnd Delivered 2 w0
                  ltac:(reflexivity))).
  exists "Mailinator.COM", "mailinator.com". split; [reflexivity|].
  split; [vm_compute; left|]. split; reflexivity.
Defined.

(** X15. Only the second segment counts: for an address with two [@], such
    as [a@b@c], with [b] of ASCII characters, the provider that is looked up
    is [b] in lower case; the part after the second [@] plays no role,
    listed or not. *)
Theorem provider_is_second_segment local mid rest now rnd d now' w :
  "@"%char ∉ list_ascii_of_string local ->
  "@"%char ∉ list_ascii_of_string mid ->
  is_ascii mid = true ->
  (exists r, fst (sendOTP (local ++ String "@"%char (mid ++ String "@"%char rest))
                          now rnd d now' w) = Normal r /\ msg r = msg_disposable)
  <-> toLowerCase mid ∈ disposableMails w.
Proof.
  intros Hl Hm _.
  assert (Hs : split "@"%char (local ++ String "@"%char (mid ++ String "@"%char rest)) !! 1%nat
               = Some mid).
  { rewrite split_cons by exact Hl. rewrite split_cons by exact Hm. reflexivity. }
  split.
  - intros (r & Hrun & Hmsg).
    destruct (includes (disposableMails w) (toLowerCase mid)) eqn:Hd.
    + apply includes_true. exact Hd.
    + exfalso. apply (sendOTP_not_disposable _ _ _ _ _ _ _ _ Hs Hd Hrun). exact Hmsg.
  - intros Hin. apply includes_true in Hin.
    rewrite (sendOTP_disposable _ _ _ _ _ _ _ Hs Hin). eexists. split; reflexivity.
Qed.

Lemma provider_is_second_segment_witness :
  ~ exists r, fst (sendOTP "a@ok.org@mailinator.com" 1 sample_rnd Delivered 2 w0) = Normal r /\
              msg r = msg_disposable.
Proof.
  intros H.
  apply (proj1 (provider_is_second_segment "a" "ok.org" "mailinator.com" 1 sample_rnd
                  Delivered 2 w0
                  ltac:(apply (bool_decide_unpack _); vm_compute; exact I)
                  ltac:(apply (bool_decide_unpack _); vm_compute; exact I)
                  ltac:(reflexivity))) in H.
  revert H. apply (bool_decide_unpack _). vm_compute. exact I.
Defined.

(** ** The list file *)

Lemma split_segments_join sep s :
  join sep (fst (split_segments sep s) :: snd (split_segments sep s)) = s.
Proof.
  induction s as [|c s IH]; [reflexivity|].
  cbn [split_segments]. destruct (split_segments sep s) as [h t]. cbn [fst snd] in *.
  destruct (Ascii.eqb_spec c sep) as [->|Hne]; cbn [fst snd].
  - change (join sep ("" :: h :: t)) with ("" ++ String sep (join sep (h :: t))).
    rewrite IH. reflexivity.
  - destruct t as [|x t].
    + change (String c h = String c s). simpl in IH. rewrite IH. reflexivity.
    + change (String c (h ++ String sep (join sep (x :: t))) = String c s).
      change (h ++ String sep (join sep (x :: t)) = s) in IH. rewrite IH. reflexivity.
Qed.

Lemma split_segments_no_sep_inside sep s :
  (sep ∉ list_ascii_of_string (fst (split_segments sep s))) /\
  Forall (fun l => sep ∉ list_ascii_of_string l) (snd (split_segments sep s)).
Proof.
  induction s as [|c s [IHh IHt]]; cbn [split_segments].
  - split; [apply not_elem_of_nil | constructor].
  - destruct (split_segments sep s) as [h t]. cbn [fst snd] in *.
    destruct (Ascii.eqb_spec c sep) as [->|Hne]; cbn [fst snd].
    + split; [apply not_elem_of_nil|]. constructor; assumption.
    + split; [|exact IHt]. cbn [list_ascii_of_string].
      intros Hin. apply elem_of_cons in Hin as [Heq|Hin]; [congruence | contradiction].
Qed.

(** X16. The entries of the list are exactly the newline-separated pieces
    of the file, untrimmed: joined with newlines they give the file back, and
    no entry contains a newline. *)
Theorem load_disposableMails_lines content :
  join newline (load_disposableMails (Some content)) = content /\
  Forall (fun l => newline ∉ list_ascii_of_string l) (load_disposableMails (Some content)).
Proof.
  unfold load_disposableMails, split.
  pose proof (split_segments_join newline content) as Hj.
  pose proof (split_segments_no_sep_inside newline content) as [Hh Ht].
  destruct (split_segments newline content) as [h t]. cbn [fst snd] in *.
  split; [exact Hj|]. constructor; assumption.
Qed.

Lemma split_segments_trailing_sep sep s :
  "" ∈ snd (split_segments sep (s ++ String sep "")).
Proof.
  induction s as [|c s IH]; simpl.
  - rewrite Ascii.eqb_refl. simpl. left.
  - destruct (split_segments sep (s ++ String sep "")) as [h t]. simpl in *.
    destruct (Ascii.eqb c sep); simpl; [right|]; exact IH.
Qed.

(** X17. A list file that is empty or ends with a newline puts the empty
    string in the list; then an address with an empty provider, [local@], is
    answered as a disposable one. *)
Theorem empty_provider_disposable content local now rnd d now' w :
  "@"%char ∉ list_ascii_of_string local ->
  disposableMails w = load_disposableMails (Some (content ++ String newline ""))
  \/ disposableMails w = load_disposableMails (Some "") ->
  sendOTP (local ++ String "@"%char "") now rnd d now' w
    = (Normal {| msg := msg_disposable; valid := false |}, w).
Proof.
  intros Hl Hfile.
  apply (sendOTP_disposable _ "").
  - rewrite split_cons by exact Hl. reflexivity.
  - apply includes_true. cbn [toLowerCase].
    destruct Hfile as [-> | ->].
    + unfold load_disposableMails, split.
      pose proof (split_segments_trailing_sep newline content) as Hin.
      destruct (split_segments newline (content ++ String newline "")) as [h t].
      right. exact Hin.
    + left.
Qed.

Lemma empty_provider_disposable_witness :
  sendOTP "user@" 1 sample_rnd Delivered 2
    (initial_world (Some ("mailinator.com" ++ String newline "")))
  = (Normal {| msg := msg_disposable; valid := false |},
     initial_world (Some ("mailinator.com" ++ String newline ""))).
Proof.
  apply (empty_provider_disposable "mailinator.com" "user").
  - apply (bool_decide_unpack _). vm_compute. exact I.
  - left. reflexivity.
Defined.

(** * Further properties of the earlier revision *)

Ltac legacy_unfold :=
  unfold Legacy.sendOTP, Legacy.backoff_gate, Legacy.generateOTP, try_catch, provider_of,
    sendMail, update_entry, entry_of, setTimeout, catch_SendOTP, log,
    bind, ret, throw, gets, modify, with_OTP in *;
  simpl in *.

(** The rate-limit block of the earlier revision either denies, leaving the
    state as it is, or passes, having at most rewritten the record of the
    address. *)
Lemma legacy_gate_cases email now w :
  (exists r, Legacy.backoff_gate email now w = (Normal (Some r), w) /\ valid r = false /\
             String.prefix "Veuillez attendre " (msg r) = true) \/
  (exists wg, Legacy.backoff_gate email now w = (Normal None, wg) /\
              disposableMails wg = disposableMails w /\ timers wg = timers w /\
              outbox wg = outbox w /\ logged wg = logged w /\
              (forall x, <[email := x]> (OTP wg) = <[email := x]> (OTP w))).
Proof.
  unfold Legacy.backoff_gate, update_entry, entry_of, bind, gets, ret, modify, with_OTP.
  destruct (OTP w !! email) as [e|] eqn:He.
  2: { right. exists w. repeat split. }
  destruct (negb (truthy (lastSendTime e))).
  { right. exists w. repeat split. }
  destruct (lastSendTime e) as [last|].
  2: { right. exists w. repeat split. }
  cbv zeta.
  destruct (now - last <? (if now - last <? OTP_RATE_LIMIT_MS
                           then OTP_RATE_LIMIT_MS * 2 ^ recentSendCount e
                           else OTP_RATE_LIMIT_MS)).
  - left. eexists. split; [reflexivity|]. split; [reflexivity|]. apply prefix_append.
  - right. rewrite He. eexists. split; [reflexivity|]. simpl.
    repeat split. intros x. apply insert_insert_eq.
Qed.

Lemma legacy_sendOTP_passed email seg now rnd d now' w wg :
  split "@"%char email !! 1%nat = Some seg ->
  includes (disposableMails w) (toLowerCase seg) = false ->
  Legacy.backoff_gate email now w = (Normal None, wg) ->
  Legacy.sendOTP email now rnd d now' w =
    match d with
    | Delivered =>
        (Normal {| msg := msg_sent; valid := true |},
         mkWorld (<[email := {| code := random_code rnd; lastSendTime := Some now';
                                recentSendCount := 1 |}]> (OTP wg))
           (disposableMails wg) (timers wg ++ [PlainExpiry email OTP_EXPIRE_MS])
           (outbox wg ++ [otp_mail email (random_code rnd)]) (logged wg))
    | Rejected =>
        (Normal {| msg := msg_failure; valid := false |},
         mkWorld (<[email := {| code := random_code rnd; lastSendTime := None;
                                recentSendCount := 0 |}]> (OTP wg))
           (disposableMails wg) (timers wg ++ [PlainExpiry email OTP_EXPIRE_MS])
           (outbox wg ++ [otp_mail email (random_code rnd)])
           (logged wg ++ [ {| log_error := "SendOTP error"; log_details := DeliveryError |} ]))
    end.
Proof.
  intros Hs Hd Hg.
  unfold Legacy.sendOTP, try_catch, bind, provider_of. rewrite Hs.
  unfold ret at 1, gets at 1. rewrite Hd. rewrite Hg.
  unfold Legacy.generateOTP, sendMail, update_entry, entry_of, setTimeout, catch_SendOTP, log,
    bind, ret, throw, gets, modify, with_OTP. simpl.
  destruct d; simpl.
  - repeat (rewrite lookup_insert_eq; simpl). rewrite !insert_insert_eq. reflexivity.
  - rewrite lookup_insert_eq. simpl. reflexivity.
Qed.

Lemma legacy_sendOTP_denied email seg now rnd d now' w r :
  split "@"%char email !! 1%nat = Some seg ->
  includes (disposableMails w) (toLowerCase seg) = false ->
  Legacy.backoff_gate email now w = (Normal (Some r), w) ->
  Legacy.sendOTP email now rnd d now' w = (Normal r, w).
Proof.
  intros Hs Hd Hg.
  unfold Legacy.sendOTP, try_catch, bind, provider_of. rewrite Hs.
  unfold ret at 1, gets at 1. rewrite Hd. rewrite Hg. reflexivity.
Qed.

Lemma legacy_sendOTP_no_segment email now rnd d now' w :
  split "@"%char email !! 1%nat = None ->
  exists l, Legacy.sendOTP email now rnd d now' w =
    (Normal {| msg := msg_failure; valid := false |},
     mkWorld (OTP w) (disposableMails w) (timers w) (outbox w) (logged w ++ [l])).
Proof. intros H. legacy_unfold. rewrite H. eexists. reflexivity. Qed.

Lemma legacy_sendOTP_disposable email seg now rnd d now' w :
  split "@"%char email !! 1%nat = Some seg ->
  includes (disposableMails w) (toLowerCase seg) = true ->
  Legacy.sendOTP email now rnd d now' w
    = (Normal {| msg := msg_disposable; valid := false |}, w).
Proof. intros H Hd. legacy_unfold. rewrite H. simpl. rewrite Hd. reflexivity. Qed.

(** X18. The earlier [sendOTP] never throws either; it answers
    [valid = true] only when the delivery succeeded, and it changes no
    record of another address. *)
Theorem legacy_sendOTP_always_answers email now rnd d now' w :
  exists r w',
    Legacy.sendOTP email now rnd d now' w = (Normal r, w') /\
    (valid r = true -> d = Delivered) /\
    disposableMails w' = disposableMails w /\
    (forall other, other <> email -> OTP w' !! other = OTP w !! other).
Proof.
  destruct (split "@"%char email !! 1%nat) as [seg|] eqn:Hs.
  2: { destruct (legacy_sendOTP_no_segment email now rnd d now' w Hs) as [l ->].
       eexists _, _. split; [reflexivity|]. simpl. repeat split. discriminate. }
  destruct (includes (disposableMails w) (toLowerCase seg)) eqn:Hd.
  { rewrite (legacy_sendOTP_disposable _ _ _ _ _ _ _ Hs Hd). eexists _, _.
    split; [reflexivity|]. simpl. repeat split. discriminate. }
  destruct (legacy_gate_cases email now w)
    as [(r & Hg & Hv & _)|(wg & Hg & Hdm & _ & _ & _ & Hins)].
  { rewrite (legacy_sendOTP_denied _ _ _ _ _ _ _ _ Hs Hd Hg). eexists _, _.
    split; [reflexivity|]. rewrite Hv. repeat split. discriminate. }
  rewrite (legacy_sendOTP_passed _ _ _ _ _ _ _ _ Hs Hd Hg).
  destruct d; eexists _, _; (split; [reflexivity|]); simpl; rewrite Hins;
    (split; [try discriminate; reflexivity|]); (split; [exact Hdm|]);
    intros other Hne; apply lookup_insert_ne; congruence.
Qed.

(** A call of the earlier revision that answers [valid = true] passed the
    rate-limit block and went through the whole commit. *)
Lemma legacy_sendOTP_committed email now rnd now' w r w' :
  Legacy.sendOTP email now rnd Delivered now' w = (Normal r, w') -> valid r = true ->
  exists seg wg,
    split "@"%char email !! 1%nat = Some seg /\
    Legacy.backoff_gate email now w = (Normal None, wg) /\
    timers wg = timers w /\
    w' = mkWorld (<[email := {| code := random_code rnd; lastSendTime := Some now';
                                recentSendCount := 1 |}]> (OTP wg))
           (disposableMails wg) (timers wg ++ [PlainExpiry email OTP_EXPIRE_MS])
           (outbox wg ++ [otp_mail email (random_code rnd)]) (logged wg).
Proof.
  intros Hrun Hvalid.
  destruct (split "@"%char email !! 1%nat) as [seg|] eqn:Hs.
  2: { destruct (legacy_sendOTP_no_segment email now rnd Delivered now' w Hs) as [l Heq].
       rewrite Heq in Hrun. injection Hrun as <- _. discriminate Hvalid. }
  destruct (includes (disposableMails w) (toLowerCase seg)) eqn:Hd.
  { rewrite (legacy_sendOTP_disposable _ _ _ _ _ _ _ Hs Hd) in Hrun.
    injection Hrun as <- _. discriminate Hvalid. }
  destruct (legacy_gate_cases email now w)
    as [(r0 & Hg & Hv & _)|(wg & Hg & _ & Ht & _)].
  { rewrite (legacy_sendOTP_denied _ _ _ _ _ _ _ _ Hs Hd Hg) in Hrun.
    injection Hrun as <- _. rewrite Hv in Hvalid. discriminate Hvalid. }
  rewrite (legacy_sendOTP_passed _ _ _ _ _ _ _ _ Hs Hd Hg) in Hrun.
  injection Hrun as _ <-. exists seg, wg. repeat split; assumption.
Qed.

(** X19. In the earlier revision the count never grows: after every
    accepted call the record of the address is the new code with
    [lastSendTime] the clock reading after the delivery and a count of 1, and
    an unguarded expiry timer has been registered. *)
Theorem legacy_accepted_count_is_one email now rnd now' w r w' :
  Legacy.sendOTP email now rnd Delivered now' w = (Normal r, w') -> valid r = true ->
  OTP w' !! email
    = Some {| code := random_code rnd; lastSendTime := Some now'; recentSendCount := 1 |} /\
  timers w' = (timers w ++ [PlainExpiry email OTP_EXPIRE_MS])%list.
Proof.
  intros Hrun Hvalid.
  destruct (legacy_sendOTP_committed _ _ _ _ _ _ _ Hrun Hvalid) as (seg & wg & _ & _ & Ht & ->).
  simpl. rewrite Ht. split; [apply lookup_insert_eq | reflexivity].
Qed.

Lemma legacy_accepted_count_is_one_witness :
  OTP (snd (Legacy.sendOTP "a@b.com" 1060000 (fun _ => 7%nat) Delivered 1061000 w1)) !! "a@b.com"
  = Some {| code := "777777"; lastSendTime := Some 1061000; recentSendCount := 1 |}.
Proof.
  refine (proj1 (legacy_accepted_count_is_one "a@b.com" 1060000 (fun _ => 7%nat) 1061000 w1
                   {| msg := msg_sent; valid := true |}
                   (snd (Legacy.sendOTP "a@b.com" 1060000 (fun _ => 7%nat) Delivered 1061000 w1))
                   _ _)).
  - vm_compute. reflexivity.
  - reflexivity.
Defined.

(** X20. In the earlier revision a failed delivery erases the rate-limit
    state: when a request made at least the base interval after the last
    send fails at the delivery, the record is left with the new code, no
    [lastSendTime] and a count of 0, so that a further request is accepted
    at once, whatever the clock. *)
Theorem legacy_failed_delivery_resets email seg w e last now rnd now' now2 rnd2 c2 :
  split "@"%char email !! 1%nat = Some seg ->
  includes (disposableMails w) (toLowerCase seg) = false ->
  OTP w !! email = Some e -> lastSendTime e = Some last -> last <> 0 ->
  0 <= recentSendCount e -> OTP_RATE_LIMIT_MS <= now - last ->
  let wf := snd (Legacy.sendOTP email now rnd Rejected now' w) in
  fst (Legacy.sendOTP email now rnd Rejected now' w)
    = Normal {| msg := msg_failure; valid := false |} /\
  OTP wf !! email
    = Some {| code := random_code rnd; lastSendTime := None; recentSendCount := 0 |} /\
  fst (Legacy.sendOTP email now2 rnd2 Delivered c2 wf)
    = Normal {| msg := msg_sent; valid := true |}.
Proof.
  intros Hs Hd He Hl Hnz Hc Hge wf.
  destruct (legacy_backoff_gate email w e last now He Hl Hnz Hc) as [_ Hpass].
  specialize (Hpass Hge).
  destruct (legacy_gate_cases email now w) as [(r & Hg & _)|(wg & Hg & Hdm & _)].
  { rewrite Hg in Hpass. discriminate Hpass. }
  assert (H1 : Legacy.sendOTP email now rnd Rejected now' w
               = (Normal {| msg := msg_failure; valid := false |}, wf)).
  { subst wf. rewrite (legacy_sendOTP_passed _ _ _ _ _ _ _ _ Hs Hd Hg). reflexivity. }
  assert (Hrec : OTP wf !! email
                 = Some {| code := random_code rnd; lastSendTime := None; recentSendCount := 0 |}).
  { subst wf. rewrite (legacy_sendOTP_passed _ _ _ _ _ _ _ _ Hs Hd Hg). simpl.
    apply lookup_insert_eq. }
  assert (Hdmf : disposableMails wf = disposableMails w).
  { subst wf. rewrite (legacy_sendOTP_passed _ _ _ _ _ _ _ _ Hs Hd Hg). simpl. exact Hdm. }
  split; [rewrite H1; reflexivity|]. split; [exact Hrec|].
  assert (Hg2 : Legacy.backoff_gate email now2 wf = (Normal None, wf)).
  { unfold Legacy.backoff_gate, bind, gets, ret. rewrite Hrec. reflexivity. }
  rewrite (legacy_sendOTP_passed email seg now2 rnd2 Delivered c2 wf wf Hs);
    [reflexivity | rewrite Hdmf; exact Hd | exact Hg2].
Qed.

Lemma legacy_failed_delivery_resets_witness :
  fst (Legacy.sendOTP "a@b.com" 1060001 sample_rnd Delivered 1060002
         (snd (Legacy.sendOTP "a@b.com" 1060000 (fun _ => 7%nat) Rejected 1061000 w1)))
  = Normal {| msg := msg_sent; valid := true |}.
Proof.
  refine (proj2 (proj2 (legacy_failed_delivery_resets "a@b.com" "b.com" w1
                          {| code := "123456"; lastSendTime := Some 1000000; recentSendCount := 1 |}
                          1000000 1060000 (fun _ => 7%nat) 1061000 1060001 sample_rnd 1060002
                          _ _ _ _ _ _ _))).
  - reflexivity.
  - vm_compute. reflexivity.
  - vm_compute. reflexivity.
  - reflexivity.
  - discriminate.
  - vm_compute. discriminate.
  - vm_compute. discriminate.
Defined.

(** X21. In the earlier revision the wait shown overstates the wait
    enforced: with the count of 1 that every accepted call leaves, a request
    within the base interval is denied with
    [ceil((120000 - elapsed) / 1000)] seconds shown, at least a minute more
    than needed, since a request one base interval after the last send is
    accepted.  The denial leaves the state unchanged. *)
Theorem legacy_shown_wait_overstates email seg w e last now rnd d now' :
  split "@"%char email !! 1%nat = Some seg ->
  includes (disposableMails w) (toLowerCase seg) = false ->
  OTP w !! email = Some e -> lastSendTime e = Some last -> last <> 0 ->
  recentSendCount e = 1 -> now - last < OTP_RATE_LIMIT_MS ->
  let shown := ceil_div (2 * OTP_RATE_LIMIT_MS - (now - last)) 1000 in
  Legacy.sendOTP email now rnd d now' w
    = (Normal {| msg := "Veuillez attendre " ++ pretty shown
                        ++ " secondes avant de renvoyer un code";
                 valid := false |}, w) /\
  OTP_RATE_LIMIT_MS - (now - last) + 60000 <= 1000 * shown /\
  fst (Legacy.sendOTP email (last + OTP_RATE_LIMIT_MS) rnd Delivered now' w)
    = Normal {| msg := msg_sent; valid := true |}.
Proof.
  intros Hs Hd He Hl Hnz Hc Hlt shown.
  split; [|split].
  - apply (legacy_sendOTP_denied _ _ _ _ _ _ _ _ Hs Hd).
    unfold Legacy.backoff_gate, bind, gets, ret. rewrite He, Hl. cbn [truthy].
    destruct (Z.eqb_spec last 0); [contradiction|]. cbn [negb]. cbv zeta. rewrite Hc.
    destruct (Z.ltb_spec (now - last) OTP_RATE_LIMIT_MS); [|lia].
    destruct (Z.ltb_spec (now - last) (OTP_RATE_LIMIT_MS * 2 ^ 1)) as [_|Hbad];
      [|unfold OTP_RATE_LIMIT_MS in *; lia].
    reflexivity.
  - pose proof (ceil_div_spec (2 * OTP_RATE_LIMIT_MS - (now - last)) 1000 ltac:(lia)) as Hs'.
    fold shown in Hs'. unfold OTP_RATE_LIMIT_MS in *. lia.
  - destruct (legacy_backoff_gate email w e last (last + OTP_RATE_LIMIT_MS) He Hl Hnz
                ltac:(lia)) as [_ Hpass].
    specialize (Hpass ltac:(lia)).
    destruct (legacy_gate_cases email (last + OTP_RATE_LIMIT_MS) w)
      as [(r & Hg & _)|(wg & Hg & _)].
    { rewrite Hg in Hpass. discriminate Hpass. }
    rewrite (legacy_sendOTP_passed _ _ _ _ _ _ _ _ Hs Hd Hg). reflexivity.
Qed.

Lemma legacy_shown_wait_overstates_witness :
  Legacy.sendOTP "a@b.com" 1030000 sample_rnd Delivered 1030500 w1
    = (Normal {| msg := "Veuillez attendre 90 secondes avant de renvoyer un code";
                 valid := false |}, w1) /\
  fst (Legacy.sendOTP "a@b.com" 1060000 sample_rnd Delivered 1030500 w1)
    = Normal {| msg := msg_sent; valid := true |}.
Proof.
  destruct (legacy_shown_wait_overstates "a@b.com" "b.com" w1
              {| code := "123456"; lastSendTime := Some 1000000; recentSendCount := 1 |}
              1000000 1030000 sample_rnd Delivered 1030500) as (Hmsg & _ & Hok).
  - reflexivity.
  - vm_compute. reflexivity.
  - vm_compute. reflexivity.
  - reflexivity.
  - discriminate.
  - reflexivity.
  - vm_compute. reflexivity.
  - split; [exact Hmsg | exact Hok].
Defined.

(** X22. In the earlier revision a timer of an earlier send deletes the
    record of a later one: every accepted call registers an unguarded
    deletion, and when the timer of a first call fires after a second call
    was accepted, the second code is gone, however recent it is. *)
Theorem legacy_superseded_timer_deletes email w n1 r1 c1 n2 r2 c2 a1 wa a2 wb now :
  Legacy.sendOTP email n1 r1 Delivered c1 w = (Normal a1, wa) -> valid a1 = true ->
  Legacy.sendOTP email n2 r2 Delivered c2 wa = (Normal a2, wb) -> valid a2 = true ->
  PlainExpiry email OTP_EXPIRE_MS ∈ timers wa /\
  OTP wb !! email
    = Some {| code := random_code r2; lastSendTime := Some c2; recentSendCount := 1 |} /\
  OTP (snd (fire (PlainExpiry email OTP_EXPIRE_MS) now wb)) !! email = None.
Proof.
  intros H1 Hv1 H2 Hv2.
  destruct (legacy_sendOTP_committed _ _ _ _ _ _ _ H1 Hv1) as (s1 & g1 & _ & _ & _ & ->).
  destruct (legacy_sendOTP_committed _ _ _ _ _ _ _ H2 Hv2) as (s2 & g2 & _ & _ & _ & ->).
  split; [|split].
  - simpl. apply elem_of_app. right. apply list_elem_of_singleton. reflexivity.
  - simpl. apply lookup_insert_eq.
  - apply legacy_plain_expiry_deletes.
Qed.

Lemma legacy_superseded_timer_deletes_witness :
  OTP (snd (fire (PlainExpiry "a@b.com" OTP_EXPIRE_MS) 22600000
              (snd (Legacy.sendOTP "a@b.com" 22000000 (fun _ => 7%nat) Delivered 22001000
                      (snd (Legacy.sendOTP "a@b.com" 999000 sample_rnd Delivered 1000000 w0))))))
    !! "a@b.com" = None.
Proof.
  refine (proj2 (proj2 (legacy_superseded_timer_deletes "a@b.com" w0
                          999000 sample_rnd 1000000 22000000 (fun _ => 7%nat) 22001000
                          {| msg := msg_sent; valid := true |}
                          (snd (Legacy.sendOTP "a@b.com" 999000 sample_rnd Delivered 1000000 w0))
                          {| msg := msg_sent; valid := true |}
                          (snd (Legacy.sendOTP "a@b.com" 22000000 (fun _ => 7%nat) Delivered 22001000
                                  (snd (Legacy.sendOTP "a@b.com" 999000 sample_rnd Delivered 1000000 w0))))
                          22600000 _ _ _ _))).
  - vm_compute. reflexivity.
  - reflexivity.
  - vm_compute. reflexivity.
  - reflexivity.
Defined.

(** * Expiry of delivered codes *)

(** X23. Every delivered code expires: in any state reached since the module
    was loaded, a record with a [lastSendTime] (not the clock reading 0) has
    a registered timer whose firing, six hours or more after that
    [lastSendTime], removes the record. *)
Theorem delivered_code_expires file acts email e t now :
  OTP (run acts (initial_world file)) !! email = Some e ->
  lastSendTime e = Some t -> t <> 0 -> t + OTP_EXPIRE_MS <= now ->
  exists timer,
    timer ∈ timers (run acts (initial_world file)) /\
    OTP (snd (fire timer now (run acts (initial_world file)))) !! email = None.
Proof.
  intros He Hl Hnz Hdue.
  pose proof (run_store_consistent file acts email e He) as [_ Htimer].
  exists (GuardedExpiry email t OTP_EXPIRE_MS). split; [exact (Htimer t Hl)|].
  simpl. rewrite expiry_callback_run. simpl. rewrite He. simpl. rewrite Hl.
  destruct (Z.eqb_spec t 0); [contradiction|].
  rewrite Z.sub_diag.
  destruct (Z.leb_spec (Z.abs 0) OTP_EXPIRE_TOLERANCE_MS) as [_|Hbad];
    [|simpl in Hbad; unfold OTP_EXPIRE_TOLERANCE_MS in Hbad; lia].
  destruct (Z.leb_spec (OTP_EXPIRE_MS - OTP_EXPIRE_TOLERANCE_MS) (now - t)) as [_|Hbad];
    [|unfold OTP_EXPIRE_TOLERANCE_MS in Hbad; lia].
  simpl. apply lookup_delete_eq.
Qed.

Lemma delivered_code_expires_witness :
  exists timer,
    timer ∈ timers w2 /\ OTP (snd (fire timer 22661000 w2)) !! "a@b.com" = None.
Proof.
  apply (delivered_code_expires (Some "mailinator.com")
           [ ActSend "a@b.com" 999000 sample_rnd Delivered 1000000;
             ActSend "a@b.com" 1060000 sample_rnd Delivered 1061000 ]
           "a@b.com"
           {| code := "123456"; lastSendTime := Some 1061000; recentSendCount := 2 |}
           1061000 22661000).
  - vm_compute. reflexivity.
  - reflexivity.
  - discriminate.
  - vm_compute. discriminate.
Defined.

(** ** The backoff over a run of sends *)




(** ** Validation and the rate limiter *)

(** X25. A successful validation erases the rate-limit state of the
    address: the record is gone, so the next request is accepted at once,
    whatever the clock and however many sends preceded, and the count starts
    again at 1. *)
Theorem validation_resets_backoff email seg otp w w' now rnd now' :
  split "@"%char email !! 1%nat = Some seg ->
  includes (disposableMails w) (toLowerCase seg) = false ->
  validateOTP email otp w = (Normal true, w') ->
  exists w'',
    sendOTP email now rnd Delivered now' w'
      = (Normal {| msg := msg_sent; valid := true |}, w'') /\
    OTP w'' !! email
      = Some {| code := random_code rnd; lastSendTime := Some now'; recentSendCount := 1 |}.
Proof.
  intros Hs Hd Hv.
  assert (Hw' : OTP w' !! email = None /\ disposableMails w' = disposableMails w).
  { destruct (validateOTP_cases email otp w) as [(e & _ & _ & _ & Heq)|[_ Heq]];
      rewrite Heq in Hv; [|discriminate].
    injection Hv as <-. simpl. split; [apply lookup_delete_eq | reflexivity]. }
  destruct Hw' as [Habs Hdm].
  assert (Hb : backoff_denial (OTP w' !! email) now = None) by (rewrite Habs; reflexivity).
  rewrite <- Hdm in Hd.
  eexists. split; [apply (sendOTP_delivered _ _ _ _ _ _ Hs Hd Hb)|].
  simpl. rewrite lookup_insert_eq, Habs. reflexivity.
Qed.

Lemma validation_resets_backoff_witness :
  exists w'',
    sendOTP "a@b.com" 31669001 sample_rnd Delivered 31669002
      (snd (validateOTP "a@b.com" "123456" w10))
      = (Normal {| msg := msg_sent; valid := true |}, w'') /\
    OTP w'' !! "a@b.com"
      = Some {| code := "123456"; lastSendTime := Some 31669002; recentSendCount := 1 |}.
Proof.
  apply (validation_resets_backoff "a@b.com" "b.com" "123456" w10).
  - reflexivity.
  - vm_compute. reflexivity.
  - vm_compute. reflexivity.
Defined.
